(** * atualiza_chromedriver.py: a shallow embedding and its properties

    The script checks the latest stable ChromeDriver, compares it with a
    locally saved marker, downloads the archive, records the version and
    publishes both files with git, then raises a desktop notification.

    The embedding keeps the source's function names.  The operating
    system, the HTTP endpoints, the git executable and the notification
    backend are the environment: they live in the [World] record and are
    consulted through the primitives of section "Environment". *)

From Stdlib Require Import ZArith String Ascii List Bool Lia DecimalString.
From stdpp Require Import base option strings gmap.
Import ListNotations.
Local Open Scope string_scope.
Local Open Scope list_scope.
Local Open Scope Z_scope.
Set Warnings "-register-all".

(** ** Python strings

    A Python [str] is modelled by a Rocq [string] whose characters are the
    code points U+0000..U+00FF. *)
Module PyStr.

Definition code (c : ascii) : N := N_of_ascii c.

(** [str.isspace] on one code point (Objects/unicodetype_db.h,
    _PyUnicode_IsWhitespace), restricted to the modelled range. *)
Definition is_space (c : ascii) : bool :=
  let n := code c in
  ((9 <=? n) && (n <=? 13) || (28 <=? n) && (n <=? 32)
   || (n =? 133) || (n =? 160))%N.

(** Line boundaries of [str.splitlines]: \n \r \v \f \x1c \x1d \x1e \x85. *)
Definition is_linebreak (c : ascii) : bool :=
  let n := code c in
  ((10 <=? n) && (n <=? 13) || (28 <=? n) && (n <=? 30) || (n =? 133))%N.

Definition LF : ascii := ascii_of_N 10.
Definition CR : ascii := ascii_of_N 13.

Fixpoint lstrip (s : string) : string :=
  match s with
  | String c s' => if is_space c then lstrip s' else s
  | EmptyString => EmptyString
  end.

(** [rstrip] keeps a character when it is not a space or when something
    survives to its right. *)
Fixpoint rstrip (s : string) : string :=
  match s with
  | String c s' =>
      match rstrip s' with
      | EmptyString => if is_space c then EmptyString else String c EmptyString
      | r => String c r
      end
  | EmptyString => EmptyString
  end.

(** [str.strip()] with no argument. *)
Definition strip (s : string) : string := rstrip (lstrip s).

Fixpoint all_space (s : string) : bool :=
  match s with
  | String c s' => is_space c && all_space s'
  | EmptyString => true
  end.

Fixpoint has_char (a : ascii) (s : string) : bool :=
  match s with
  | String c s' => Ascii.eqb a c || has_char a s'
  | EmptyString => false
  end.

(** [str.splitlines()]: "\r\n" counts as one boundary, and a final
    boundary does not open an empty last line. *)
Fixpoint splitlines (s : string) : list string :=
  match s with
  | EmptyString => []
  | String c s' =>
      if Ascii.eqb c CR then
        match s' with
        | String d s'' =>
            if Ascii.eqb d LF then EmptyString :: splitlines s''
            else EmptyString :: splitlines s'
        | EmptyString => [EmptyString]
        end
      else if is_linebreak c then EmptyString :: splitlines s'
      else
        match splitlines s' with
        | [] => [String c EmptyString]
        | l :: ls => String c l :: ls
        end
  end.

(** Reading in text mode with [newline=None]: "\r\n" and a lone "\r"
    both arrive as "\n". *)
Fixpoint universal_newlines (s : string) : string :=
  match s with
  | EmptyString => EmptyString
  | String c s' =>
      if Ascii.eqb c CR then
        match s' with
        | String d s'' =>
            if Ascii.eqb d LF then String LF (universal_newlines s'')
            else String LF (universal_newlines s')
        | EmptyString => String LF EmptyString
        end
      else String c (universal_newlines s')
  end.

(** [os.linesep] of the platform the script runs on. *)
Inductive linesep := PosixLF | WindowsCRLF.

(** Writing in text mode with [newline=None]: every "\n" becomes
    [os.linesep]. *)
Fixpoint translate_on_write (ls : linesep) (s : string) : string :=
  match s with
  | EmptyString => EmptyString
  | String c s' =>
      if Ascii.eqb c LF then
        match ls with
        | PosixLF => String LF (translate_on_write ls s')
        | WindowsCRLF => String CR (String LF (translate_on_write ls s'))
        end
      else String c (translate_on_write ls s')
  end.

(** A string that begins or ends with white space. *)
Definition starts_with_space (s : string) : bool :=
  match s with String c _ => is_space c | EmptyString => false end.

Fixpoint ends_with_space (s : string) : bool :=
  match s with
  | EmptyString => false
  | String c EmptyString => is_space c
  | String _ s' => ends_with_space s'
  end.

(** [x in xs] for a string and a list of strings. *)
Definition str_in (x : string) (xs : list string) : bool :=
  existsb (String.eqb x) xs.

End PyStr.

(** ** Exceptions and results *)

(** The exception classes the script can meet.  [JSONDecodeError] is the
    one of requests >= 2.27, a subclass of both [RequestException] and
    [ValueError]. *)
Inductive PyExc :=
| RequestException (detail : string)
| JSONDecodeError
| ValueError (detail : string)
| KeyError (key : string)
| TypeError
| FileNotFoundError (path : string)
| NotADirectoryError (path : string)
| IsADirectoryError (path : string)
| FileExistsError (path : string)
| CalledProcessError (returncode : Z) (cmd : list string) (stderr : option string)
| OtherException (detail : string).

Definition is_RequestException (e : PyExc) : bool :=
  match e with RequestException _ | JSONDecodeError => true | _ => false end.

Definition is_ValueError (e : PyExc) : bool :=
  match e with ValueError _ | JSONDecodeError => true | _ => false end.

Definition is_KeyError (e : PyExc) : bool :=
  match e with KeyError _ => true | _ => false end.

Definition is_FileNotFoundError (e : PyExc) : bool :=
  match e with FileNotFoundError _ => true | _ => false end.

Definition is_CalledProcessError (e : PyExc) : bool :=
  match e with CalledProcessError _ _ _ => true | _ => false end.

Inductive Result (A : Type) :=
| Ok (a : A)
| Raise (e : PyExc).
Arguments Ok {A} a.
Arguments Raise {A} e.

Definition is_ok {A} (r : Result A) : bool :=
  match r with Ok _ => true | Raise _ => false end.

(** ** Parsed JSON, as [response.json()] returns it

    A dict is kept as its list of items; a key denotes its first binding.
    Floating-point numbers are left out: the script never computes with a
    number, and every number behaves like [JInt] below. *)
Module Json.

Inductive json :=
| JNull
| JBool (b : bool)
| JInt (n : Z)
| JStr (s : string)
| JList (items : list json)
| JDict (kvs : list (string * json)).

Fixpoint dict_get (kvs : list (string * json)) (k : string) : option json :=
  match kvs with
  | [] => None
  | (k', v) :: rest => if String.eqb k k' then Some v else dict_get rest k
  end.

Fixpoint dict_keys (seen : list string) (kvs : list (string * json)) : list string :=
  match kvs with
  | [] => []
  | (k, _) :: rest =>
      if PyStr.str_in k seen then dict_keys seen rest
      else k :: dict_keys (k :: seen) rest
  end.

Fixpoint chars (s : string) : list json :=
  match s with
  | EmptyString => []
  | String c s' => JStr (String c EmptyString) :: chars s'
  end.

(** [v[k]] with a string key. *)
Definition getitem (v : json) (k : string) : Result json :=
  match v with
  | JDict kvs =>
      match dict_get kvs k with
      | Some x => Ok x
      | None => Raise (KeyError k)
      end
  | _ => Raise TypeError
  end.

(** [iter(v)], run to the end. *)
Definition iterate (v : json) : Result (list json) :=
  match v with
  | JList items => Ok items
  | JDict kvs => Ok (map JStr (dict_keys [] kvs))
  | JStr s => Ok (chars s)
  | _ => Raise TypeError
  end.

(** [v == s] for a string literal [s]. *)
Definition eq_str (v : json) (s : string) : bool :=
  match v with JStr t => String.eqb t s | _ => false end.

(** Truth value, as [not v] tests it. *)
Definition truthy (v : json) : bool :=
  match v with
  | JNull => false
  | JBool b => b
  | JInt n => negb (n =? 0)
  | JStr s => negb (String.eqb s "")
  | JList items => match items with [] => false | _ => true end
  | JDict kvs => match kvs with [] => false | _ => true end
  end.

End Json.
Import Json.

(** ** Paths (posixpath) *)
Module Path.

Definition SEP : ascii := "/"%char.

Definition starts_with_sep (s : string) : bool :=
  match s with String c _ => Ascii.eqb c SEP | EmptyString => false end.

Fixpoint ends_with_sep (s : string) : bool :=
  match s with
  | EmptyString => false
  | String c EmptyString => Ascii.eqb c SEP
  | String _ s' => ends_with_sep s'
  end.

(** [os.path.join(a, b)]. *)
Definition join (a b : string) : string :=
  if starts_with_sep b then b
  else if String.eqb a "" || ends_with_sep a then a +:+ b
  else a +:+ String SEP b.

(** [s.split('/')]. *)
Fixpoint split (s : string) : list string :=
  match s with
  | EmptyString => [EmptyString]
  | String c s' =>
      if Ascii.eqb c SEP then EmptyString :: split s'
      else
        match split s' with
        | [] => [String c EmptyString]
        | x :: xs => String c x :: xs
        end
  end.

(** Lexical resolution of the components of a path against the
    directory [rstack] (innermost component first). *)
Fixpoint walk (rstack comps : list string) : list string :=
  match comps with
  | [] => rev rstack
  | c :: cs =>
      if String.eqb c "" || String.eqb c "." then walk rstack cs
      else if String.eqb c ".." then walk (tail rstack) cs
      else walk (c :: rstack) cs
  end.

(** The directory entry a path string names, seen from [cwd]; the
    empty string names nothing. *)
Definition resolve (cwd : list string) (p : string) : option (list string) :=
  if String.eqb p "" then None
  else if starts_with_sep p then Some (walk [] (split p))
  else Some (walk (rev cwd) (split p)).

(** The absolute path string of a list of components. *)
Fixpoint render_tail (comps : list string) : string :=
  match comps with
  | [] => EmptyString
  | c :: cs => String SEP (c +:+ render_tail cs)
  end.

Definition render (comps : list string) : string :=
  match comps with
  | [] => String SEP EmptyString
  | _ => render_tail comps
  end.

Definition no_sep (c : string) : bool := negb (PyStr.has_char SEP c).

(** A component that [walk] keeps as it is. *)
Definition clean (c : string) : bool :=
  no_sep c && negb (String.eqb c "") && negb (String.eqb c ".") && negb (String.eqb c "..").

Definition parent (comps : list string) : list string := removelast comps.

End Path.

(** ** Environment *)

(** A directory entry.  A file is kept as the characters its bytes decode
    to (for the text marker) or as its bytes (for the archive); a marker
    that is not valid UTF-8 is outside the model. *)
Inductive Node :=
| Dir
| File (data : string).

(** What launching a command line gives: no such executable, or a
    finished process. *)
Inductive ProcOutcome :=
| ExecutableMissing
| Exited (returncode : Z) (stdout stderr : string).

(** The host's programs: [host_exec h cwd fs cmd] is the outcome of
    running [cmd] in directory [cwd] over the file system [fs], and the
    host state afterwards (for git: the repository database). Programs
    read the file system and do not change it. *)
Class ProcessHost (G : Type) :=
  host_exec : G -> list string -> gmap (list string) Node -> list string -> ProcOutcome * G.

(** An HTTP response as the script looks at it: [content_length] is the
    header with the value [int()] gives it ([Some None]: present, not an
    integer), [json_body] is what [.json()] parses ([None]: not JSON),
    [chunks] is what [iter_content] yields, [broken_after] a transport
    failure after the last chunk. *)
Record Response := {
  status_code : Z;
  content_length : option (option Z);
  json_body : option json;
  chunks : list string;
  broken_after : option string
}.

Inductive HttpReply :=
| Unreachable (detail : string)
| Responded (r : Response).

Record World (G : Type) := mkWorld {
  w_cwd : string;                          (* working directory of the process *)
  w_fs : gmap (list string) Node;          (* directory entries, by components *)
  w_linesep : PyStr.linesep;
  w_host : G;
  w_http : nat -> string -> HttpReply;     (* reply to the n-th request, by URL *)
  w_sent : nat;                            (* requests sent so far *)
  w_notifier : string -> string -> option string;  (* [Some d]: the backend raises *)
  w_sha256 : string -> string              (* hashlib.sha256(data).hexdigest() *)
}.
Arguments mkWorld {G}.
Arguments w_cwd {G}.
Arguments w_fs {G}.
Arguments w_linesep {G}.
Arguments w_host {G}.
Arguments w_http {G}.
Arguments w_sent {G}.
Arguments w_notifier {G}.
Arguments w_sha256 {G}.

(** The lines [log] prints, without timestamp and colour. *)
Inductive LogLine :=
| LogEnvMissing | LogEnvHint
| LogQueryingApi
| LogDownloadDone
| LogNoChanges | LogChangesDetected | LogCommitSent
| LogTagExists (tag : string) | LogCreatingTag (tag : string) | LogTagCreated (tag : string)
| LogGitNotFound | LogGitError (e : PyExc) | LogStderr (stderr : option string)
| LogNotifyFailed (e : PyExc)
| LogStart | LogLatestFound (version : json) | LogSavedVersion (shown : string)
| LogUpToDate | LogNewVersion | LogSha256 (digest : string)
| LogVersionFileUpdated (version : json) | LogDone
| LogNetworkError (e : PyExc) | LogDataError (e : PyExc) | LogUnexpected (e : PyExc).

Inductive Event :=
| EvLog (line : LogLine)
| EvPrintBlank
| EvPrintProgress (downloaded total : Z)
| EvMakedirs (path : string)
| EvChdir (path : string)
| EvOpenWrite (path : string)
| EvWrite (path : string) (data : string)
| EvHttpGet (url : string) (stream : bool) (timeout : Z)
| EvRun (cwd : list string) (cmd : list string) (outcome : ProcOutcome)
| EvNotify (title message : string).

(** *** The monad of scripts: state, exceptions and a trace *)

Definition M (G A : Type) : Type := World G -> Result A * World G * list Event.

Definition ret {G A} (a : A) : M G A := fun w => (Ok a, w, []).

Definition raise {G A} (e : PyExc) : M G A := fun w => (Raise e, w, []).

Definition bind {G A B} (m : M G A) (f : A -> M G B) : M G B :=
  fun w =>
    match m w with
    | (Ok a, w1, t1) => let '(r, w2, t2) := f a w1 in (r, w2, t1 ++ t2)
    | (Raise e, w1, t1) => (Raise e, w1, t1)
    end.

Definition emit {G} (ev : Event) : M G unit := fun w => (Ok tt, w, [ev]).

Definition lift {G A} (r : Result A) : M G A := fun w => (r, w, []).

(** [try: m except ...]: [h e] is the body of the clause that matches
    [e], if one does. *)
Definition try_except {G A} (m : M G A) (h : PyExc -> option (M G A)) : M G A :=
  fun w =>
    match m w with
    | (Ok a, w1, t1) => (Ok a, w1, t1)
    | (Raise e, w1, t1) =>
        match h e with
        | Some k => let '(r, w2, t2) := k w1 in (r, w2, t1 ++ t2)
        | None => (Raise e, w1, t1)
        end
    end.

(** [try: m finally: c]. *)
Definition try_finally {G A} (m : M G A) (c : M G unit) : M G A :=
  fun w =>
    let '(r, w1, t1) := m w in
    match c w1 with
    | (Ok _, w2, t2) => (r, w2, t1 ++ t2)
    | (Raise e, w2, t2) => (Raise e, w2, t1 ++ t2)
    end.

Declare Scope script_scope.
Delimit Scope script_scope with script.
Notation "x <- m ;; k" := (bind m (fun x => k))
  (at level 100, m at next level, right associativity) : script_scope.
Notation "m ;; k" := (bind m (fun _ => k))
  (at level 100, right associativity) : script_scope.
Local Open Scope script_scope.

Definition outcome {G A} (o : Result A * World G * list Event) : Result A := fst (fst o).
Definition final {G A} (o : Result A * World G * list Event) : World G := snd (fst o).
Definition trace {G A} (o : Result A * World G * list Event) : list Event := snd o.

(** *** Primitives of the operating system and the libraries *)
Section Primitives.
Context {G : Type} `{ProcessHost G}.

Definition with_cwd (w : World G) (c : string) : World G :=
  mkWorld c (w_fs w) (w_linesep w) (w_host w) (w_http w) (w_sent w)
          (w_notifier w) (w_sha256 w).

Definition with_fs (w : World G) (fs : gmap (list string) Node) : World G :=
  mkWorld (w_cwd w) fs (w_linesep w) (w_host w) (w_http w) (w_sent w)
          (w_notifier w) (w_sha256 w).

Definition with_host (w : World G) (h : G) : World G :=
  mkWorld (w_cwd w) (w_fs w) (w_linesep w) h (w_http w) (w_sent w)
          (w_notifier w) (w_sha256 w).

Definition with_sent (w : World G) (n : nat) : World G :=
  mkWorld (w_cwd w) (w_fs w) (w_linesep w) (w_host w) (w_http w) n
          (w_notifier w) (w_sha256 w).

(** The components of the working directory. *)
Definition cwd_path (w : World G) : list string :=
  Path.walk [] (Path.split (w_cwd w)).

(** The entry at a list of components; the root is a directory. *)
Definition node_at (fs : gmap (list string) Node) (c : list string) : option Node :=
  match c with
  | [] => Some Dir
  | _ => fs !! c
  end.

Definition is_dir (fs : gmap (list string) Node) (c : list string) : bool :=
  match node_at fs c with Some Dir => true | _ => false end.

Definition is_file (fs : gmap (list string) Node) (c : list string) : bool :=
  match node_at fs c with Some (File _) => true | _ => false end.

Definition resolve (w : World G) (p : string) : option (list string) :=
  Path.resolve (cwd_path w) p.

(** [os.getcwd()]: fails when the directory is gone. *)
Definition os_getcwd : M G string :=
  fun w =>
    if is_dir (w_fs w) (cwd_path w) then (Ok (Path.render (cwd_path w)), w, [])
    else (Raise (FileNotFoundError ""), w, []).

(** [os.chdir(path)]. *)
Definition os_chdir (path : string) : M G unit :=
  fun w =>
    match resolve w path with
    | None => (Raise (FileNotFoundError path), w, [EvChdir path])
    | Some c =>
        if is_dir (w_fs w) c then (Ok tt, with_cwd w (Path.render c), [EvChdir path])
        else if is_file (w_fs w) c then (Raise (NotADirectoryError path), w, [EvChdir path])
        else (Raise (FileNotFoundError path), w, [EvChdir path])
    end.

(** The non-empty prefixes of a list of components, shortest first. *)
Fixpoint prefixes (acc c : list string) : list (list string) :=
  match c with
  | [] => []
  | x :: xs => (acc ++ [x]) :: prefixes (acc ++ [x]) xs
  end.

Definition mkdir_all (fs : gmap (list string) Node) (ps : list (list string))
  : gmap (list string) Node :=
  fold_left (fun m p => <[p := Dir]> m) ps fs.

(** [os.makedirs(path, exist_ok=True)]: a file at the path or above it
    makes the call fail and nothing is created. *)
Definition os_makedirs (path : string) : M G unit :=
  fun w =>
    match resolve w path with
    | None => (Raise (FileNotFoundError path), w, [EvMakedirs path])
    | Some c =>
        if is_file (w_fs w) c then (Raise (FileExistsError path), w, [EvMakedirs path])
        else if existsb (is_file (w_fs w)) (prefixes [] c)
        then (Raise (NotADirectoryError path), w, [EvMakedirs path])
        else (Ok tt, with_fs w (mkdir_all (w_fs w) (prefixes [] c)), [EvMakedirs path])
    end.

(** [os.path.exists(path)]. *)
Definition os_path_exists (path : string) : M G bool :=
  fun w =>
    match resolve w path with
    | None => (Ok false, w, [])
    | Some c => (Ok (bool_decide (is_Some (node_at (w_fs w) c))), w, [])
    end.

(** [open(path, 'rb').read()]: the whole content. *)
Definition read_binary (path : string) : M G string :=
  fun w =>
    match resolve w path with
    | None => (Raise (FileNotFoundError path), w, [])
    | Some c =>
        match node_at (w_fs w) c with
        | Some Dir => (Raise (IsADirectoryError path), w, [])
        | Some (File d) => (Ok d, w, [])
        | None => (Raise (FileNotFoundError path), w, [])
        end
    end.

(** [open(path, 'r', encoding='utf-8').read()]: the decoded content
    after newline translation. *)
Definition read_text (path : string) : M G string :=
  d <- read_binary path ;; ret (PyStr.universal_newlines d).

(** [open(path, 'w')] and [open(path, 'wb')]: creates or truncates. *)
Definition open_write (path : string) : M G unit :=
  fun w =>
    match resolve w path with
    | None => (Raise (FileNotFoundError path), w, [EvOpenWrite path])
    | Some c =>
        if is_dir (w_fs w) c then (Raise (IsADirectoryError path), w, [EvOpenWrite path])
        else if is_dir (w_fs w) (Path.parent c)
        then (Ok tt, with_fs w (<[c := File ""]> (w_fs w)), [EvOpenWrite path])
        else if is_file (w_fs w) (Path.parent c)
        then (Raise (NotADirectoryError path), w, [EvOpenWrite path])
        else (Raise (FileNotFoundError path), w, [EvOpenWrite path])
    end.

(** [f.write(data)] on a file opened for writing at [path]: appends. *)
Definition write_binary (path data : string) : M G unit :=
  fun w =>
    match resolve w path with
    | Some c =>
        match node_at (w_fs w) c with
        | Some (File d) =>
            (Ok tt, with_fs w (<[c := File (d +:+ data)]> (w_fs w)), [EvWrite path data])
        | _ => (Ok tt, w, [EvWrite path data])
        end
    | None => (Ok tt, w, [EvWrite path data])
    end.

Definition write_text (path data : string) : M G unit :=
  fun w => write_binary path (PyStr.translate_on_write (w_linesep w) data) w.

(** [requests.get(url, stream=..., timeout=...)]. *)
Definition requests_get (url : string) (stream : bool) (timeout : Z) : M G Response :=
  fun w =>
    match w_http w (w_sent w) url with
    | Unreachable d =>
        (Raise (RequestException d), with_sent w (S (w_sent w)), [EvHttpGet url stream timeout])
    | Responded r =>
        (Ok r, with_sent w (S (w_sent w)), [EvHttpGet url stream timeout])
    end.

(** [response.raise_for_status()]. *)
Definition raise_for_status (r : Response) : M G unit :=
  if (400 <=? status_code r) && (status_code r <? 600)
  then raise (RequestException "HTTPError")
  else ret tt.

(** [response.json()]. *)
Definition response_json (r : Response) : M G json :=
  match json_body r with
  | Some v => ret v
  | None => raise JSONDecodeError
  end.

Record CompletedProcess := {
  cp_returncode : Z;
  cp_stdout : option string;
  cp_stderr : option string
}.

(** [subprocess.run(cmd, capture_output=..., text=True, check=...)]:
    without [capture_output] the streams are inherited, and neither the
    result nor the exception holds their text. *)
Definition subprocess_run (cmd : list string) (capture_output check : bool)
  : M G CompletedProcess :=
  fun w =>
    let '(o, h) := host_exec (w_host w) (cwd_path w) (w_fs w) cmd in
    let w' := with_host w h in
    let ev := [EvRun (cwd_path w) cmd o] in
    match o with
    | ExecutableMissing => (Raise (FileNotFoundError (hd "" cmd)), w', ev)
    | Exited rc out err =>
        let captured (s : string) := if capture_output then Some s else None in
        if check && negb (rc =? 0)
        then (Raise (CalledProcessError rc cmd (captured err)), w', ev)
        else (Ok {| cp_returncode := rc; cp_stdout := captured out;
                    cp_stderr := captured err |}, w', ev)
    end.

(** [notification.notify(title=..., message=..., timeout=10)]. *)
Definition notification_notify (title message : string) : M G unit :=
  fun w =>
    match w_notifier w title message with
    | Some d => (Raise (OtherException d), w, [EvNotify title message])
    | None => (Ok tt, w, [EvNotify title message])
    end.

End Primitives.

(** ** The script *)

Definition ZIP_NAME : string := "chromedriver-win64.zip".
Definition VERSION_FILE : string := "version.txt".
Definition JSON_URL : string :=
  "https://googlechromelabs.github.io/chrome-for-testing/last-known-good-versions-with-downloads.json".
Definition CHUNK_SIZE : Z := 1024 * 1024.

(** The text of the [ValueError] of [obter_ultima_versao_e_url]; the a
    with tilde is U+00E3. *)
Definition MSG_URL_NOT_FOUND : string :=
  "URL do chromedriver-win64.zip n" +:+ String (ascii_of_N 227) "o encontrada no JSON!".

(** [str(v)] inside an f-string.  The script formats the version after
    [salvar_versao] only, which lets nothing but a [str] through; for
    containers the rendering below leaves string escapes out. *)
Fixpoint py_repr (v : json) : string :=
  match v with
  | JNull => "None"
  | JBool true => "True"
  | JBool false => "False"
  | JInt n => DecimalString.NilZero.string_of_int (Z.to_int n)
  | JStr s => "'" +:+ s +:+ "'"
  | JList items => "[" +:+ String.concat ", " (map py_repr items) +:+ "]"
  | JDict kvs =>
      "{" +:+ String.concat ", "
                (map (fun kv => "'" +:+ fst kv +:+ "': " +:+ py_repr (snd kv)) kvs)
          +:+ "}"
  end.

Definition py_str (v : json) : string :=
  match v with JStr s => s | _ => py_repr v end.

Section Script.
Context {G : Type} `{ProcessHost G}.

(** [log(msg, style)]. *)
Definition log (line : LogLine) : M G unit := emit (EvLog line).

(** [with change_dir(path): body]. *)
Definition change_dir {A} (path : string) (body : M G A) : M G A :=
  original_path <- os_getcwd ;;
  try_finally (os_chdir path ;; body) (os_chdir original_path).

(** The file is read in pieces of 8192 bytes; the digest of the pieces
    fed in order is the digest of the content. *)
Definition calcular_sha256 (caminho_arquivo : string) : M G string :=
  fun w => (data <- read_binary caminho_arquivo ;; ret (w_sha256 w data)) w.

(** [next((item for item in downloads if item["platform"] == "win64"), None)]. *)
Fixpoint next_win64 (downloads : list json) : Result json :=
  match downloads with
  | [] => Ok JNull
  | item :: rest =>
      match getitem item "platform" with
      | Raise e => Raise e
      | Ok platform =>
          if eq_str platform "win64" then Ok item else next_win64 rest
      end
  end.

(** The part of [obter_ultima_versao_e_url] after [response.json()]. *)
Definition select_win64 (data : json) : Result (json * json) :=
  match getitem data "channels" with
  | Raise e => Raise e
  | Ok channels =>
  match getitem channels "Stable" with
  | Raise e => Raise e
  | Ok stable_channel =>
  match getitem stable_channel "version" with
  | Raise e => Raise e
  | Ok version =>
  match getitem stable_channel "downloads" with
  | Raise e => Raise e
  | Ok dls =>
  match getitem dls "chromedriver" with
  | Raise e => Raise e
  | Ok downloads =>
  match iterate downloads with
  | Raise e => Raise e
  | Ok items =>
  match next_win64 items with
  | Raise e => Raise e
  | Ok win64_download =>
      if negb (truthy win64_download) then Raise (ValueError MSG_URL_NOT_FOUND)
      else
        match getitem win64_download "url" with
        | Raise e => Raise e
        | Ok url => Ok (version, url)
        end
  end end end end end end end.

Definition obter_ultima_versao_e_url : M G (json * json) :=
  log LogQueryingApi ;;
  response <- requests_get JSON_URL false 15 ;;
  raise_for_status response ;;
  data <- response_json response ;;
  lift (select_win64 data).

Definition ler_versao_salva (path : string) : M G (option string) :=
  e <- os_path_exists path ;;
  if e : bool then (s <- read_text path ;; ret (Some (PyStr.strip s)))
  else ret None.

(** [f.write(version)] accepts a [str] only; the file is already
    truncated when another value is refused. *)
Definition salvar_versao (path : string) (version : json) : M G unit :=
  open_write path ;;
  match version with
  | JStr s => write_text path s
  | _ => raise TypeError
  end.

(** The loop over [response.iter_content]; empty chunks are skipped. *)
Fixpoint write_chunks (path : string) (total_size downloaded_size : Z)
         (cs : list string) : M G Z :=
  match cs with
  | [] => ret downloaded_size
  | chunk :: rest =>
      if String.eqb chunk "" then write_chunks path total_size downloaded_size rest
      else
        write_binary path chunk ;;
        let downloaded_size := downloaded_size + Z.of_nat (String.length chunk) in
        emit (EvPrintProgress downloaded_size total_size) ;;
        write_chunks path total_size downloaded_size rest
  end.

(** [requests.get] turns a URL that is not a [str] into its text, which
    has no scheme: [MissingSchema], a [RequestException], and nothing is
    sent. *)
Definition baixar_arquivo_com_progresso (url : json) (path : string) : M G unit :=
  response <- match url with
              | JStr u => requests_get u true 60
              | _ => raise (RequestException "MissingSchema")
              end ;;
  raise_for_status response ;;
  total_size <- match content_length response with
                | None => ret 0
                | Some (Some n) => ret n
                | Some None => raise (ValueError "invalid literal for int()")
                end ;;
  open_write path ;;
  emit EvPrintBlank ;;
  write_chunks path total_size 0 (chunks response) ;;
  match broken_after response with
  | Some d => raise (RequestException d)
  | None => ret tt
  end ;;
  emit EvPrintBlank ;;
  log LogDownloadDone.

Definition stdout_text (r : CompletedProcess) : string :=
  match cp_stdout r with Some s => s | None => "" end.

(** The block under [with change_dir(repo_path):]. *)
Definition publish_body (files_to_add : list string) (tag message : string) : M G unit :=
  status_result <- subprocess_run (["git"; "status"; "--porcelain"] ++ files_to_add)
                                  true true ;;
  (if String.eqb (PyStr.strip (stdout_text status_result)) ""
   then log LogNoChanges
   else
     log LogChangesDetected ;;
     subprocess_run (["git"; "add"] ++ files_to_add) false true ;;
     subprocess_run ["git"; "commit"; "-m"; message] false true ;;
     subprocess_run ["git"; "push"] false true ;;
     log LogCommitSent) ;;
  tags_result <- subprocess_run ["git"; "tag"] true true ;;
  if PyStr.str_in tag (PyStr.splitlines (stdout_text tags_result))
  then log (LogTagExists tag)
  else
    log (LogCreatingTag tag) ;;
    subprocess_run ["git"; "tag"; tag] false true ;;
    subprocess_run ["git"; "push"; "origin"; tag] false true ;;
    log (LogTagCreated tag).

(** The two [except] clauses of [git_push_com_tag]. *)
Definition publish_handler (e : PyExc) : option (M G unit) :=
  match e with
  | FileNotFoundError _ => Some (log LogGitNotFound)
  | CalledProcessError _ _ stderr =>
      Some (log (LogGitError e) ;; log (LogStderr stderr))
  | _ => None
  end.

Definition git_push_com_tag (repo_path : string) (files_to_add : list string)
           (tag message : string) : M G unit :=
  try_except (change_dir repo_path (publish_body files_to_add tag message))
             publish_handler.

Definition notificar (titulo mensagem : string) : M G unit :=
  try_except (notification_notify titulo mensagem)
             (fun e => Some (log (LogNotifyFailed e))).

(** [versao_salva == versao_recente]. *)
Definition eq_saved (versao_salva : option string) (versao_recente : json) : bool :=
  match versao_salva, versao_recente with
  | None, JNull => true
  | Some s, JStr t => String.eqb s t
  | _, _ => false
  end.

(** [versao_salva or 'Nenhuma']. *)
Definition saved_or_none (versao_salva : option string) : string :=
  match versao_salva with
  | Some s => if String.eqb s "" then "Nenhuma" else s
  | None => "Nenhuma"
  end.

(** The rest of the [try] block of [main] once a new version is seen. *)
Definition main_update (CHROMEDRIVER_PATH caminho_zip caminho_version : string)
           (versao_recente url_chromedriver : json) : M G unit :=
  log LogNewVersion ;;
  baixar_arquivo_com_progresso url_chromedriver caminho_zip ;;
  sha256 <- calcular_sha256 caminho_zip ;;
  log (LogSha256 sha256) ;;
  salvar_versao caminho_version versao_recente ;;
  log (LogVersionFileUpdated versao_recente) ;;
  let tag := "v" +:+ py_str versao_recente in
  let commit_message :=
    "Atualiza ChromeDriver para a vers" +:+ String (ascii_of_N 227) "o "
    +:+ py_str versao_recente in
  git_push_com_tag CHROMEDRIVER_PATH [ZIP_NAME; VERSION_FILE] tag commit_message ;;
  notificar "ChromeDriver Atualizado"
            ("Vers" +:+ String (ascii_of_N 227) "o " +:+ py_str versao_recente
             +:+ " baixada e enviada para o GitHub.") ;;
  log LogDone.

(** The [try] block of [main]. *)
Definition main_try (CHROMEDRIVER_PATH caminho_zip caminho_version : string) : M G unit :=
  log LogStart ;;
  vu <- obter_ultima_versao_e_url ;;
  let versao_recente := fst vu in
  let url_chromedriver := snd vu in
  log (LogLatestFound versao_recente) ;;
  versao_salva <- ler_versao_salva caminho_version ;;
  log (LogSavedVersion (saved_or_none versao_salva)) ;;
  if eq_saved versao_salva versao_recente then log LogUpToDate
  else main_update CHROMEDRIVER_PATH caminho_zip caminho_version
                   versao_recente url_chromedriver.

(** The three [except] clauses of [main]. *)
Definition main_handler (e : PyExc) : option (M G unit) :=
  if is_RequestException e then Some (log (LogNetworkError e))
  else if is_ValueError e || is_KeyError e then Some (log (LogDataError e))
  else Some (log (LogUnexpected e)).

(** [main()]; the argument is the module constant [CHROMEDRIVER_PATH],
    [None] when the variable is not set. *)
Definition main (CHROMEDRIVER_PATH : option string) : M G unit :=
  match CHROMEDRIVER_PATH with
  | None | Some EmptyString => log LogEnvMissing ;; log LogEnvHint
  | Some p =>
      os_makedirs p ;;
      let caminho_zip := Path.join p ZIP_NAME in
      let caminho_version := Path.join p VERSION_FILE in
      try_except (main_try p caminho_zip caminho_version) main_handler
  end.

End Script.

(** ** A reference git

    A small model of the git executable, used where a claim speaks of
    what git does between two runs.  The repository lives at [git_root];
    [git_head] and [git_index] map the names git was given to contents;
    [git_faults] schedules failures from outside (network, locks): the
    n-th entry, when [Some err], makes the n-th command exit with status 1
    and [err] on its standard error. *)
Module RefGit.

Record Repo := mkRepo {
  git_installed : bool;
  git_root : list string;
  git_head : gmap string string;
  git_index : gmap string string;
  git_tags : list string;
  git_faults : list (option string)
}.

Definition with_index (g : Repo) (i : gmap string string) : Repo :=
  mkRepo (git_installed g) (git_root g) (git_head g) i (git_tags g) (git_faults g).
Definition with_head (g : Repo) (h : gmap string string) : Repo :=
  mkRepo (git_installed g) (git_root g) h (git_index g) (git_tags g) (git_faults g).
Definition with_tags (g : Repo) (t : list string) : Repo :=
  mkRepo (git_installed g) (git_root g) (git_head g) (git_index g) t (git_faults g).
Definition with_faults (g : Repo) (f : list (option string)) : Repo :=
  mkRepo (git_installed g) (git_root g) (git_head g) (git_index g) (git_tags g) f.

(** The content of the working-tree file a name denotes. *)
Definition worktree (cwd : list string) (fs : gmap (list string) Node) (f : string)
  : option string :=
  match Path.resolve cwd f with
  | Some c => match node_at fs c with Some (File d) => Some d | _ => None end
  | None => None
  end.

Definition changed (g : Repo) (cwd : list string) (fs : gmap (list string) Node)
           (f : string) : bool :=
  negb (bool_decide (worktree cwd fs f = git_index g !! f)
        && bool_decide (git_index g !! f = git_head g !! f)).

Definition status_line (g : Repo) (f : string) : string :=
  match git_index g !! f, git_head g !! f with
  | None, None => "?? " +:+ f +:+ String PyStr.LF ""
  | _, _ => " M " +:+ f +:+ String PyStr.LF ""
  end.

(** One line for each name in [scope] that differs between working
    tree, index and HEAD. *)
Fixpoint status_of (g : Repo) (cwd : list string) (fs : gmap (list string) Node)
         (scope : list string) : string :=
  match scope with
  | [] => ""
  | f :: rest =>
      if changed g cwd fs f then status_line g f +:+ status_of g cwd fs rest
      else status_of g cwd fs rest
  end.

(** [git status --porcelain files]; with no file, every tracked name is
    in scope. *)
Definition status (g : Repo) (cwd : list string) (fs : gmap (list string) Node)
           (files : list string) : string :=
  match files with
  | [] => status_of g cwd fs (elements (dom (git_head g) ∪ dom (git_index g)))
  | _ => status_of g cwd fs files
  end.

Definition stage (cwd : list string) (fs : gmap (list string) Node)
           (i : gmap string string) (f : string) : gmap string string :=
  match worktree cwd fs f with
  | Some d => <[f := d]> i
  | None => delete f i
  end.

Definition unknown_path (g : Repo) (cwd : list string) (fs : gmap (list string) Node)
           (f : string) : bool :=
  bool_decide (worktree cwd fs f = None) && bool_decide (git_index g !! f = None).

(** Printable ASCII without the characters git-check-ref-format bans. *)
Definition ref_char (c : ascii) : bool :=
  let n := PyStr.code c in
  ((33 <=? n) && (n <=? 126))%N
  && negb (PyStr.has_char c "~^:?*[\").

Fixpoint all_ref_chars (s : string) : bool :=
  match s with
  | EmptyString => true
  | String c s' => ref_char c && all_ref_chars s'
  end.

Definition valid_ref (t : string) : bool :=
  negb (String.eqb t "") && all_ref_chars t.

(** [git tag]: one tag per line. *)
Fixpoint tag_listing (tags : list string) : string :=
  match tags with
  | [] => ""
  | t :: rest => t +:+ String PyStr.LF (tag_listing rest)
  end.

Definition usage (g : Repo) : ProcOutcome * Repo := (Exited 129 "" "usage: git", g).

Definition run (g : Repo) (cwd : list string) (fs : gmap (list string) Node)
           (args : list string) : ProcOutcome * Repo :=
  match args with
  | [] => usage g
  | sub :: rest =>
      if String.eqb sub "status" then
        match rest with
        | opt :: files =>
            if String.eqb opt "--porcelain" then (Exited 0 (status g cwd fs files) "", g)
            else usage g
        | [] => usage g
        end
      else if String.eqb sub "add" then
        if existsb (unknown_path g cwd fs) rest
        then (Exited 128 "" "fatal: pathspec did not match any files", g)
        else (Exited 0 "" "", with_index g (fold_left (stage cwd fs) rest (git_index g)))
      else if String.eqb sub "commit" then
        match rest with
        | [opt; _] =>
            if String.eqb opt "-m" then
              if bool_decide (git_index g = git_head g)
              then (Exited 1 "nothing to commit, working tree clean" "", g)
              else (Exited 0 "" "", with_head g (git_index g))
            else usage g
        | _ => usage g
        end
      else if String.eqb sub "push" then
        match rest with
        | [] => (Exited 0 "" "", g)
        | [remote; t] =>
            if String.eqb remote "origin" then
              if PyStr.str_in t (git_tags g) then (Exited 0 "" "", g)
              else (Exited 1 "" "error: src refspec does not match any", g)
            else usage g
        | _ => usage g
        end
      else if String.eqb sub "tag" then
        match rest with
        | [] => (Exited 0 (tag_listing (git_tags g)) "", g)
        | [t] =>
            if negb (valid_ref t) then (Exited 128 "" "fatal: not a valid tag name", g)
            else if PyStr.str_in t (git_tags g)
            then (Exited 128 "" "fatal: tag already exists", g)
            else (Exited 0 "" "", with_tags g (git_tags g ++ [t]))
        | _ => usage g
        end
      else usage g
  end.

Definition exec (g : Repo) (cwd : list string) (fs : gmap (list string) Node)
           (cmd : list string) : ProcOutcome * Repo :=
  match cmd with
  | prog :: args =>
      if negb (String.eqb prog "git") || negb (git_installed g) then (ExecutableMissing, g)
      else
        match git_faults g with
        | Some err :: later => (Exited 1 "" err, with_faults g later)
        | faults =>
            let g := with_faults g (tail faults) in
            if bool_decide (cwd = git_root g) then run g cwd fs args
            else (Exited 128 "" "fatal: not a git repository", g)
        end
  | [] => (ExecutableMissing, g)
  end.

#[global] Instance host : ProcessHost Repo := exec.

End RefGit.

(** * Auxiliary definitions *)

Section Predicates.
Context {G : Type}.

(** Nothing lives at the path: neither a file nor a directory. *)
Definition path_missing (w : World G) (path : string) : bool :=
  match resolve w path with
  | None => true
  | Some c => bool_decide (node_at (w_fs w) c = None)
  end.

(** A regular file with content [d] lives at the path. *)
Definition file_at (w : World G) (path d : string) : Prop :=
  exists c, resolve w path = Some c /\ node_at (w_fs w) c = Some (File d).

Definition log_lines (t : list Event) : list LogLine :=
  flat_map (fun ev => match ev with EvLog l => [l] | _ => [] end) t.

Definition commands (t : list Event) : list (list string) :=
  flat_map (fun ev => match ev with EvRun _ cmd _ => [cmd] | _ => [] end) t.

(** The response does not make [raise_for_status] raise. *)
Definition status_ok (r : Response) : bool :=
  negb ((400 <=? status_code r) && (status_code r <? 600)).

(** A JSON object. *)
Definition is_object (d : json) : bool :=
  match d with JDict _ => true | _ => false end.

(** The exceptions of the second [except] clause of [main], which
    reports a data-processing error. *)
Definition data_format_error (e : PyExc) : bool := is_ValueError e || is_KeyError e.

(** A download descriptor: an object with a platform and a URL. *)
Definition is_descriptor (d : json) : bool :=
  match d with
  | JDict kvs =>
      match dict_get kvs "platform", dict_get kvs "url" with
      | Some _, Some _ => true
      | _, _ => false
      end
  | _ => false
  end.

(** A descriptor whose platform equals "win64". *)
Definition is_win64 (d : json) : bool :=
  match getitem d "platform" with
  | Ok platform => eq_str platform "win64"
  | Raise _ => false
  end.

(** The metadata has the stable-channel section, with this version and
    this chromedriver download list. *)
Definition stable_shape (data version : json) (ds : list json) : Prop :=
  exists channels stable dls,
    getitem data "channels" = Ok channels
    /\ getitem channels "Stable" = Ok stable
    /\ getitem stable "version" = Ok version
    /\ getitem stable "downloads" = Ok dls
    /\ getitem dls "chromedriver" = Ok (JList ds).

(** The metadata endpoint answers the next request with [data]. *)
Definition metadata_reply (w : World G) (data : json) : Prop :=
  exists r, w_http w (w_sent w) JSON_URL = Responded r
            /\ status_ok r = true /\ json_body r = Some data.

(** The outcomes of the commands of a trace, in order. *)
Definition run_outcomes (t : list Event) : list ProcOutcome :=
  flat_map (fun ev => match ev with EvRun _ _ o => [o] | _ => [] end) t.

(** The command ran and exited with status 0. *)
Definition succeeded (o : ProcOutcome) : bool :=
  match o with
  | Exited rc _ _ => rc =? 0
  | ExecutableMissing => false
  end.

(** The two queries of the publish step. *)
Definition is_query (files_to_add cmd : list string) : bool :=
  bool_decide (cmd = ["git"; "status"; "--porcelain"] ++ files_to_add)
  || bool_decide (cmd = ["git"; "tag"]).

(** The publish step gets as far as its commands: the working directory
    exists and the path names a directory. *)
Definition body_runs (w : World G) (repo_path : string) : bool :=
  is_dir (w_fs w) (cwd_path w)
  && match resolve w repo_path with
     | Some c => is_dir (w_fs w) c
     | None => false
     end.

(** The world without the entry at [k]. *)
Definition without_entry (w : World G) (k : list string) : World G :=
  with_fs w (delete k (w_fs w)).

(** Two worlds in directory [cwd] that differ at most in the entry at
    [k], which is a directory in neither. *)
Definition agree_off (cwd : string) (k : list string) (w w' : World G) : Prop :=
  w_cwd w = cwd /\ w_cwd w' = cwd
  /\ delete k (w_fs w) = delete k (w_fs w')
  /\ is_dir (w_fs w) k = false /\ is_dir (w_fs w') k = false
  /\ w_linesep w = w_linesep w'
  /\ w_host w = w_host w'
  /\ w_http w = w_http w'
  /\ w_sent w = w_sent w'
  /\ w_notifier w = w_notifier w'
  /\ w_sha256 w = w_sha256 w'.

(** Programs that do not look at the entry at [k]: from two such worlds
    they return the same, emit the same and leave two such worlds. *)
Definition same_off {A} (cwd : string) (k : list string) (m : M G A) : Prop :=
  forall w w', agree_off cwd k w w' ->
    outcome (m w) = outcome (m w') /\ trace (m w) = trace (m w')
    /\ agree_off cwd k (final (m w)) (final (m w')).

(** Programs that bring two such worlds together: same result, same
    trace and, when they return normally, the same world. *)
Definition joins {A} (cwd : string) (k : list string) (m : M G A) : Prop :=
  forall w w', agree_off cwd k w w' ->
    outcome (m w) = outcome (m w') /\ trace (m w) = trace (m w')
    /\ (is_ok (outcome (m w)) = true -> final (m w) = final (m w')).

(** Programs that keep a property of the host's programs. *)
Definition keeps_host `{ProcessHost G} {A} (I : G -> Prop) (m : M G A) : Prop :=
  forall w, I (w_host w) -> I (w_host (final (m w))).

(** Programs that raise nothing but exceptions in [P]. *)
Definition raises_only {A} (P : PyExc -> Prop) (m : M G A) : Prop :=
  forall w e, outcome (m w) = Raise e -> P e.

(** What a failing command raises: the executable is missing, or it
    exited with a non-zero status. *)
Definition command_failure (e : PyExc) : Prop :=
  is_FileNotFoundError e || is_CalledProcessError e = true.

(** An event a program that only runs commands and logs may emit, when
    it starts in directory [cwd]. *)
Definition runs_in (cwd : list string) (ev : Event) : Prop :=
  match ev with
  | EvRun c _ _ => c = cwd
  | EvLog _ => True
  | _ => False
  end.

(** The two halves of [publish_body], named for the proofs: the branch
    taken when the status reports changes, and the tag handling. *)
Definition publish_changes `{ProcessHost G} (files_to_add : list string) (message : string)
  : M G unit :=
  (log LogChangesDetected ;;
   subprocess_run (["git"; "add"] ++ files_to_add) false true ;;
   subprocess_run ["git"; "commit"; "-m"; message] false true ;;
   subprocess_run ["git"; "push"] false true ;;
   log LogCommitSent)%script.

Definition publish_tag `{ProcessHost G} (tag : string) : M G unit :=
  (tags_result <- subprocess_run ["git"; "tag"] true true ;;
   if PyStr.str_in tag (PyStr.splitlines (stdout_text tags_result))
   then log (LogTagExists tag)
   else
     log (LogCreatingTag tag) ;;
     subprocess_run ["git"; "tag"; tag] false true ;;
     subprocess_run ["git"; "push"; "origin"; tag] false true ;;
     log (LogTagCreated tag))%script.

(** Programs that leave the working directory and the file system alone
    and emit nothing but log lines and commands run where they started. *)
Definition host_only `{ProcessHost G} {A} (m : M G A) : Prop :=
  forall w, w_cwd (final (m w)) = w_cwd w
            /\ w_fs (final (m w)) = w_fs w
            /\ Forall (runs_in (cwd_path w)) (trace (m w)).

Definition is_artifact_request (ev : Event) : bool :=
  match ev with EvHttpGet _ true _ => true | _ => false end.

End Predicates.

(** The repository has nothing left to publish for these files and this
    tag: git is there, the directory is the repository, the status of
    the files is empty and the tag is listed. *)
Definition settled (g : RefGit.Repo) (c : list string) (fs : gmap (list string) Node)
           (files_to_add : list string) (tag : string) : Prop :=
  RefGit.git_installed g = true
  /\ c = RefGit.git_root g
  /\ String.eqb (PyStr.strip (RefGit.status g c fs files_to_add)) "" = true
  /\ PyStr.str_in tag (PyStr.splitlines (RefGit.tag_listing (RefGit.git_tags g))) = true.

(** ** Concrete scenarios *)
Module Scenario.

Definition win64_descriptor : json :=
  JDict [("platform", JStr "win64"); ("url", JStr "https://host/win64.zip")].

Definition downloads : list json :=
  [JDict [("platform", JStr "linux64"); ("url", JStr "https://host/linux64.zip")];
   win64_descriptor].

Definition metadata : json :=
  JDict [("channels", JDict [("Stable", JDict [
    ("version", JStr "131.0.6778.204");
    ("downloads", JDict [("chromedriver", JList downloads)])])])].

Definition reply : Response :=
  {| status_code := 200; content_length := Some (Some 3); json_body := Some metadata;
     chunks := ["PK"; ""; "!"]; broken_after := None |}.

(** A repository at /repo with nothing committed and no tag. *)
Definition repo0 : RefGit.Repo := RefGit.mkRepo true ["repo"] ∅ ∅ [] [].

Definition world0 : World RefGit.Repo :=
  mkWorld "/" {[ ["repo"] := Dir ]} PyStr.PosixLF repo0
          (fun _ _ => Responded reply) 0 (fun _ _ => None) (fun _ => "00").

(** The same, with a regular file where the repository directory should
    be. *)
Definition blocked_world : World RefGit.Repo :=
  mkWorld "/" {[ ["repo"] := File "not a directory" ]} PyStr.PosixLF repo0
          (fun _ _ => Responded reply) 0 (fun _ _ => None) (fun _ => "00").

(** The repository directory holds a marker with the current version
    and a final newline. *)
Definition current_world : World RefGit.Repo :=
  mkWorld "/" {[ ["repo"] := Dir;
                 ["repo"; "version.txt"] := File ("131.0.6778.204" +:+ String PyStr.LF "") ]}
          PyStr.PosixLF repo0
          (fun _ _ => Responded reply) 0 (fun _ _ => None) (fun _ => "00").

(** No repository directory yet, and metadata whose version is null. *)
Definition null_metadata : json :=
  JDict [("channels", JDict [("Stable", JDict [
    ("version", JNull);
    ("downloads", JDict [("chromedriver", JList downloads)])])])].

Definition null_world : World RefGit.Repo :=
  mkWorld "/" ∅ PyStr.PosixLF repo0
          (fun _ _ => Responded
             {| status_code := 200; content_length := None;
                json_body := Some null_metadata; chunks := []; broken_after := None |})
          0 (fun _ _ => None) (fun _ => "00").

(** The repository directory holds a fresh archive and marker, nothing is
    committed, and the second git command will fail (a stale lock). *)
Definition lock_message : string :=
  "fatal: Unable to create '.git/index.lock': File exists.".

Definition faulty_world : World RefGit.Repo :=
  mkWorld "/" {[ ["repo"] := Dir;
                 ["repo"; "chromedriver-win64.zip"] := File "PK!";
                 ["repo"; "version.txt"] := File "131.0.6778.204" ]}
          PyStr.PosixLF
          (RefGit.mkRepo true ["repo"] ∅ ∅ [] [None; Some lock_message])
          (fun _ _ => Responded reply) 0 (fun _ _ => None) (fun _ => "00").

(** As [faulty_world], but it is the fourth command, [git push], that
    fails: the network is down. *)
Definition offline_world : World RefGit.Repo :=
  mkWorld "/" {[ ["repo"] := Dir;
                 ["repo"; "chromedriver-win64.zip"] := File "PK!";
                 ["repo"; "version.txt"] := File "131.0.6778.204" ]}
          PyStr.PosixLF
          (RefGit.mkRepo true ["repo"] ∅ ∅ []
                         [None; None; None; Some "fatal: unable to access the remote"])
          (fun _ _ => Responded reply) 0 (fun _ _ => None) (fun _ => "00").

(** The same files with a git that does as it is told. *)
Definition fresh_world : World RefGit.Repo :=
  mkWorld "/" {[ ["repo"] := Dir;
                 ["repo"; "chromedriver-win64.zip"] := File "PK!";
                 ["repo"; "version.txt"] := File "131.0.6778.204" ]}
          PyStr.PosixLF repo0
          (fun _ _ => Responded reply) 0 (fun _ _ => None) (fun _ => "00").

(** The repository directory holds a marker with a space and a newline
    and nothing else. *)
Definition blank_world : World RefGit.Repo :=
  mkWorld "/" {[ ["repo"] := Dir;
                 ["repo"; "version.txt"] := File (String " " (String PyStr.LF "")) ]}
          PyStr.PosixLF repo0
          (fun _ _ => Responded reply) 0 (fun _ _ => None) (fun _ => "00").

(** A version with a carriage return inside: "1", CR, "2". *)
Definition cr_version : string := String "1" (String PyStr.CR "2").
Definition lf_version : string := String "1" (String PyStr.LF "2").

End Scenario.

(** * Properties *)

(** ** Strings *)
Module PyStrFacts.
Import PyStr.

Lemma is_space_LF : is_space LF = true.
Proof. reflexivity. Qed.

Lemma universal_translate (ls : linesep) (s : string) :
  has_char CR s = false ->
  universal_newlines (translate_on_write ls s) = s.
Proof.
  induction s as [|c s IH]; [reflexivity|].
  cbn [has_char translate_on_write].
  intros Hcr. apply orb_false_iff in Hcr as [Hc Hs].
  rewrite Ascii.eqb_sym in Hc.
  destruct (Ascii.eqb c LF) eqn:Hlf.
  - apply Ascii.eqb_eq in Hlf. subst c.
    destruct ls; cbn [universal_newlines]; rewrite IH by assumption; reflexivity.
  - cbn [universal_newlines]. rewrite Hc, IH by assumption. reflexivity.
Qed.

Lemma all_space_universal (s : string) :
  all_space s = true -> all_space (universal_newlines s) = true.
Proof.
  remember (String.length s) as n eqn:Hn.
  assert (Hle : (String.length s <= n)%nat) by lia. clear Hn.
  revert s Hle. induction n as [|n IHn]; intros s Hle.
  { destruct s; [reflexivity | cbn [String.length] in Hle; lia]. }
  assert (IH : forall t, (String.length t < String.length s)%nat ->
                         all_space t = true -> all_space (universal_newlines t) = true).
  { intros t Ht. apply IHn. lia. }
  clear IHn Hle.
  destruct s as [|c s]; [reflexivity|].
  cbn [all_space universal_newlines].
  intros Hs. apply andb_true_iff in Hs as [Hc Hs].
  destruct (Ascii.eqb c CR).
  - destruct s as [|d s]; [reflexivity|].
    cbn [all_space] in Hs. apply andb_true_iff in Hs as [Hd Hs].
    destruct (Ascii.eqb d LF); cbn [all_space]; rewrite is_space_LF; cbn [andb].
    + apply IH; [cbn [String.length]; lia | assumption].
    + apply IH; [cbn [String.length]; lia | cbn [all_space]; rewrite Hd; assumption].
  - cbn [all_space]. rewrite Hc. apply IH; [cbn [String.length]; lia | assumption].
Qed.

Lemma lstrip_all_space (s : string) : all_space s = true -> lstrip s = "".
Proof.
  induction s as [|c s IH]; simpl; [reflexivity|].
  intros Hs. apply andb_true_iff in Hs as [Hc Hs]. rewrite Hc. auto.
Qed.

Lemma strip_all_space (s : string) : all_space s = true -> strip s = "".
Proof. intros Hs. unfold strip. rewrite lstrip_all_space by assumption. reflexivity. Qed.

Lemma lstrip_id (s : string) : starts_with_space s = false -> lstrip s = s.
Proof. destruct s as [|c s]; simpl; [reflexivity|]. intros ->. reflexivity. Qed.

Lemma rstrip_id (s : string) : ends_with_space s = false -> rstrip s = s.
Proof.
  induction s as [|c s IH]; [reflexivity|].
  intros Hs. simpl. destruct s as [|d s].
  - simpl in *. rewrite Hs. reflexivity.
  - rewrite IH by exact Hs. reflexivity.
Qed.

Lemma strip_id (s : string) :
  starts_with_space s = false -> ends_with_space s = false -> strip s = s.
Proof. intros H1 H2. unfold strip. rewrite lstrip_id by assumption. apply rstrip_id, H2. Qed.

Lemma str_in_In (x : string) (xs : list string) : str_in x xs = true <-> In x xs.
Proof.
  unfold str_in. rewrite existsb_exists. split.
  - intros (y & Hy & Heq). apply String.eqb_eq in Heq. subst. assumption.
  - intros Hx. exists x. split; [assumption | apply String.eqb_refl].
Qed.

End PyStrFacts.

(** ** Paths *)
Module PathFacts.
Import Path.

Lemma append_nil_l (b : string) : "" +:+ b = b.
Proof. reflexivity. Qed.

Lemma append_cons (c : ascii) (a b : string) : String c a +:+ b = String c (a +:+ b).
Proof. reflexivity. Qed.

Lemma append_nil_r (s : string) : s +:+ "" = s.
Proof. induction s as [|c s IH]; [reflexivity | rewrite append_cons, IH; reflexivity]. Qed.

Lemma append_assoc (a b c : string) : (a +:+ b) +:+ c = a +:+ (b +:+ c).
Proof.
  induction a as [|x a IH]; [reflexivity | rewrite !append_cons, IH; reflexivity].
Qed.

Lemma split_not_nil (s : string) : split s <> [].
Proof.
  destruct s as [|c s]; cbn [split]; [discriminate|].
  destruct (Ascii.eqb c SEP); [discriminate|].
  destruct (split s); discriminate.
Qed.

Lemma split_app_sep (a b : string) : split (a +:+ String SEP b) = split a ++ split b.
Proof.
  induction a as [|c a IH]; [rewrite append_nil_l | rewrite append_cons]; cbn [split].
  - rewrite Ascii.eqb_refl. reflexivity.
  - destruct (Ascii.eqb c SEP); rewrite IH; [reflexivity|].
    pose proof (split_not_nil a) as Hne.
    destruct (split a) as [|x xs]; [contradiction | reflexivity].
Qed.

Lemma split_no_sep_id (c : string) : no_sep c = true -> split c = [c].
Proof.
  unfold no_sep. induction c as [|x c IH]; cbn [split PyStr.has_char]; [reflexivity|].
  intros Hx. apply negb_true_iff, orb_false_iff in Hx as [Hx Hc].
  rewrite Ascii.eqb_sym, Hx. rewrite IH by (rewrite Hc; reflexivity). reflexivity.
Qed.

Lemma split_no_sep (s : string) : Forall (fun c => no_sep c = true) (split s).
Proof.
  induction s as [|x s IH]; cbn [split].
  - constructor; [reflexivity | constructor].
  - destruct (Ascii.eqb x SEP) eqn:Hx.
    + constructor; [reflexivity | assumption].
    + destruct (split s) as [|y ys]; [constructor; [|constructor]|].
      * unfold no_sep. cbn [PyStr.has_char]. rewrite Ascii.eqb_sym, Hx. reflexivity.
      * inversion IH as [|? ? Hy Hys]; subst. constructor; [|assumption].
        unfold no_sep in *. cbn [PyStr.has_char]. rewrite Ascii.eqb_sym, Hx. exact Hy.
Qed.

Lemma walk_app (st xs ys : list string) :
  walk st (xs ++ ys) = walk (rev (walk st xs)) ys.
Proof.
  revert st. induction xs as [|x xs IH]; intros st; cbn [walk app].
  - rewrite rev_involutive. reflexivity.
  - destruct (String.eqb x "" || String.eqb x "."); [apply IH|].
    destruct (String.eqb x ".."); apply IH.
Qed.

Lemma clean_spec (c : string) :
  clean c = true ->
  no_sep c = true /\ String.eqb c "" = false /\ String.eqb c "." = false
  /\ String.eqb c ".." = false.
Proof.
  unfold clean. rewrite !andb_true_iff, !negb_true_iff. tauto.
Qed.

Lemma walk_clean_id (st cs : list string) :
  Forall (fun c => clean c = true) cs -> walk st cs = rev st ++ cs.
Proof.
  intros Hcs. revert st. induction Hcs as [|c cs Hc _ IH]; intros st; cbn [walk].
  - rewrite app_nil_r. reflexivity.
  - apply clean_spec in Hc as (_ & -> & -> & ->). cbn [orb].
    rewrite IH. cbn [rev]. rewrite <- app_assoc. reflexivity.
Qed.

Lemma walk_is_clean (st cs : list string) :
  Forall (fun c => clean c = true) st ->
  Forall (fun c => no_sep c = true) cs ->
  Forall (fun c => clean c = true) (walk st cs).
Proof.
  intros Hst Hcs. revert st Hst.
  induction Hcs as [|c cs Hc _ IH]; intros st Hst; cbn [walk].
  - apply Forall_rev. exact Hst.
  - destruct (String.eqb c "") eqn:E1; cbn [orb]; [apply IH, Hst|].
    destruct (String.eqb c ".") eqn:E2; [apply IH, Hst|].
    destruct (String.eqb c "..") eqn:E3.
    + apply IH. destruct st; [constructor | inversion Hst; assumption].
    + apply IH. constructor; [|exact Hst].
      unfold clean. rewrite Hc, E1, E2, E3. reflexivity.
Qed.

Lemma split_render_tail (c : string) (cs : list string) :
  no_sep c = true ->
  Forall (fun c => clean c = true) cs ->
  split (c +:+ render_tail cs) = c :: cs.
Proof.
  intros Hc Hcs. revert c Hc. induction Hcs as [|d ds Hd _ IH]; intros c Hc.
  - cbn [render_tail]. rewrite append_nil_r. apply split_no_sep_id, Hc.
  - cbn [render_tail]. rewrite split_app_sep, split_no_sep_id by exact Hc.
    rewrite IH by (apply clean_spec in Hd; tauto). reflexivity.
Qed.

(** Resolving the rendering of a resolved path gives the path back. *)
Lemma walk_split_render (cs : list string) :
  Forall (fun c => clean c = true) cs -> walk [] (split (render cs)) = cs.
Proof.
  intros Hcs. destruct cs as [|c cs]; [reflexivity|].
  cbn [render render_tail]. change (String SEP (c +:+ render_tail cs))
    with ("" +:+ String SEP (c +:+ render_tail cs)).
  rewrite split_app_sep. inversion Hcs as [|? ? Hc Hcs']; subst.
  rewrite split_render_tail by (try apply clean_spec in Hc; tauto).
  cbn [split app walk String.eqb orb]. apply (walk_clean_id [] (c :: cs)), Hcs.
Qed.

Lemma cwd_clean (s : string) : Forall (fun c => clean c = true) (walk [] (split s)).
Proof. apply walk_is_clean; [constructor | apply split_no_sep]. Qed.

Lemma resolve_clean (cwd : list string) (p : string) (c : list string) :
  Forall (fun c => clean c = true) cwd ->
  resolve cwd p = Some c ->
  Forall (fun c => clean c = true) c.
Proof.
  unfold resolve. intros Hcwd.
  destruct (String.eqb p ""); [discriminate|].
  destruct (starts_with_sep p); intros [= <-].
  - apply walk_is_clean; [constructor | apply split_no_sep].
  - apply walk_is_clean; [apply Forall_rev, Hcwd | apply split_no_sep].
Qed.

Lemma render_not_empty (cs : list string) : String.eqb (render cs) "" = false.
Proof. destruct cs; reflexivity. Qed.

Lemma render_starts_with_sep (cs : list string) : starts_with_sep (render cs) = true.
Proof. destruct cs; reflexivity. Qed.

Lemma resolve_render (cwd cs : list string) :
  Forall (fun c => clean c = true) cs ->
  resolve cwd (render cs) = Some cs.
Proof.
  intros Hcs. unfold resolve.
  rewrite render_not_empty, render_starts_with_sep, walk_split_render by exact Hcs.
  reflexivity.
Qed.

Lemma starts_with_sep_app (p x : string) :
  String.eqb p "" = false -> starts_with_sep (p +:+ x) = starts_with_sep p.
Proof. destruct p; [discriminate | reflexivity]. Qed.

Lemma eqb_app_empty (p x : string) :
  String.eqb p "" = false -> String.eqb (p +:+ x) "" = false.
Proof. destruct p; [discriminate | reflexivity]. Qed.

Lemma eqb_app_sep_empty (q x : string) : String.eqb (q +:+ String SEP x) "" = false.
Proof. destruct q; reflexivity. Qed.

Lemma starts_with_sep_app_sep (q x : string) :
  starts_with_sep (q +:+ String SEP x) = starts_with_sep (q +:+ String SEP "").
Proof. destruct q; reflexivity. Qed.

Lemma ends_with_sep_inv (p : string) :
  ends_with_sep p = true -> exists q, p = q +:+ String SEP "".
Proof.
  induction p as [|c p IH]; [discriminate|].
  destruct p as [|d p].
  - cbn [ends_with_sep]. intros Hc. apply Ascii.eqb_eq in Hc. subst c.
    exists "". reflexivity.
  - intros Hp. destruct (IH Hp) as [q Hq]. exists (String c q).
    rewrite append_cons, <- Hq. reflexivity.
Qed.

(** [os.path.join(p, name)] names the entry [name] of the directory [p]. *)
Lemma resolve_join (cwd : list string) (p name : string) (c0 : list string) :
  resolve cwd p = Some c0 ->
  clean name = true ->
  resolve cwd (join p name) = Some (c0 ++ [name]).
Proof.
  intros Hp Hname. pose proof (clean_spec _ Hname) as (Hns & Hne & Hd & Hdd).
  unfold resolve in *. destruct (String.eqb p "") eqn:Hpe; [discriminate|].
  assert (Hstart : starts_with_sep name = false).
  { destruct name as [|x name]; [reflexivity|]. unfold no_sep in Hns.
    cbn [PyStr.has_char] in Hns. apply negb_true_iff, orb_false_iff in Hns as [Hx _].
    cbn [starts_with_sep]. rewrite Ascii.eqb_sym. exact Hx. }
  assert (Hwalk : forall st q, walk st (split q ++ [name]) = walk st (split q) ++ [name]).
  { intros st q. rewrite walk_app. cbn [walk]. rewrite Hne, Hd, Hdd. cbn [orb rev].
    rewrite rev_involutive. reflexivity. }
  unfold join. rewrite Hstart, Hpe. cbn [orb].
  destruct (ends_with_sep p) eqn:Hend.
  - destruct (ends_with_sep_inv _ Hend) as [q ->].
    rewrite append_assoc, append_cons, append_nil_l.
    rewrite split_app_sep in Hp.
    assert (Hq : forall st, walk st (split q ++ split "") = walk st (split q)).
    { intros st. rewrite walk_app. cbn [split walk String.eqb orb].
      apply rev_involutive. }
    rewrite eqb_app_sep_empty, starts_with_sep_app_sep.
    rewrite split_app_sep, (split_no_sep_id name) by exact Hns.
    rewrite !Hwalk. rewrite !Hq in Hp.
    destruct (starts_with_sep (q +:+ String SEP "")); injection Hp as <-; reflexivity.
  - rewrite eqb_app_empty by exact Hpe.
    rewrite starts_with_sep_app by exact Hpe.
    rewrite split_app_sep, (split_no_sep_id name) by exact Hns.
    rewrite !Hwalk.
    destruct (starts_with_sep p); injection Hp as <-; reflexivity.
Qed.

End PathFacts.

(** ** The marker store *)
Section StoreFacts.
Context {G : Type} `{ProcessHost G}.

Lemma node_at_insert_eq (fs : gmap (list string) Node) (c : list string) (n : Node) :
  c <> [] -> node_at (<[c := n]> fs) c = Some n.
Proof. destruct c; [contradiction|]. intros _. apply lookup_insert_eq. Qed.

Lemma node_at_insert_ne (fs : gmap (list string) Node) (c c' : list string) (n : Node) :
  c <> c' -> node_at (<[c := n]> fs) c' = node_at fs c'.
Proof. destruct c'; [reflexivity|]. intros Hne. apply lookup_insert_ne, Hne. Qed.

Lemma node_at_file_not_root (fs : gmap (list string) Node) (c : list string) (d : string) :
  node_at fs c = Some (File d) -> c <> [] /\ fs !! c = Some (File d).
Proof. destruct c; [discriminate|]. intros Hc. split; [discriminate | exact Hc]. Qed.

Lemma is_dir_false_not_root (fs : gmap (list string) Node) (c : list string) :
  is_dir fs c = false -> c <> [].
Proof. destruct c; [discriminate|]. discriminate. Qed.

Lemma resolve_with_fs (w : World G) (fs : gmap (list string) Node) (p : string) :
  resolve (with_fs w fs) p = resolve w p.
Proof. reflexivity. Qed.

(** A successful [open(path, 'w')] leaves an empty file at the path. *)
Lemma open_write_ok (path : string) (w w1 : World G) (t : list Event) :
  open_write path w = (Ok tt, w1, t) ->
  exists c, resolve w path = Some c /\ c <> []
            /\ w1 = with_fs w (<[c := File ""]> (w_fs w)) /\ t = [EvOpenWrite path].
Proof.
  unfold open_write. destruct (resolve w path) as [c|]; [|discriminate].
  destruct (is_dir (w_fs w) c) eqn:Hd; [discriminate|].
  apply is_dir_false_not_root in Hd.
  destruct (is_dir (w_fs w) (Path.parent c)).
  - intros [= <- <-]. exists c. repeat split. exact Hd.
  - destruct (is_file (w_fs w) (Path.parent c)); discriminate.
Qed.

(** A successful [salvar_versao] leaves the version, with its newlines
    translated, at the path. *)
Lemma salvar_versao_ok (path V : string) (w w1 : World G) (t : list Event) :
  salvar_versao path (JStr V) w = (Ok tt, w1, t) ->
  exists c, resolve w path = Some c /\ c <> []
            /\ w1 = with_fs w (<[c := File (PyStr.translate_on_write (w_linesep w) V)]> (w_fs w))
            /\ t = [EvOpenWrite path;
                    EvWrite path (PyStr.translate_on_write (w_linesep w) V)].
Proof.
  unfold salvar_versao, bind.
  destruct (open_write path w) as [[[[]|e] w0] t0] eqn:Hopen; [|discriminate].
  apply open_write_ok in Hopen as (c & Hc & Hne & -> & ->).
  unfold write_text, write_binary. rewrite resolve_with_fs, Hc.
  cbn [w_fs with_fs w_linesep]. rewrite node_at_insert_eq by exact Hne.
  intros [= <- <-]. exists c. repeat split; try assumption.
  unfold with_fs. cbn. rewrite insert_insert_eq. reflexivity.
Qed.

(** Reading a regular file: the decoded, newline-translated, trimmed
    content. *)
Lemma ler_versao_salva_file (path d : string) (c : list string) (w : World G) :
  resolve w path = Some c ->
  node_at (w_fs w) c = Some (File d) ->
  ler_versao_salva path w = (Ok (Some (PyStr.strip (PyStr.universal_newlines d))), w, []).
Proof.
  intros Hc Hd. unfold ler_versao_salva, bind, os_path_exists. rewrite Hc.
  rewrite bool_decide_eq_true_2 by (rewrite Hd; eauto).
  unfold read_text, read_binary, bind, ret. rewrite Hc, Hd. reflexivity.
Qed.

(** Nothing at the path: the sentinel, and no failure. *)
Lemma ler_versao_salva_missing (path : string) (w : World G) :
  os_path_exists path w = (Ok false, w, []) ->
  ler_versao_salva path w = (Ok None, w, []).
Proof. intros He. unfold ler_versao_salva, bind. rewrite He. reflexivity. Qed.

End StoreFacts.

Section MarkerRoundTrip.
Context {G : Type} `{ProcessHost G}.

Lemma path_missing_exists (w : World G) (path : string) :
  path_missing w path = true -> os_path_exists path w = (Ok false, w, []).
Proof.
  unfold path_missing, os_path_exists. destruct (resolve w path) as [c|]; [|reflexivity].
  intros Hc. apply bool_decide_eq_true in Hc.
  rewrite bool_decide_eq_false_2; [reflexivity|]. rewrite Hc. intros [? ?]. discriminate.
Qed.


End MarkerRoundTrip.



(** ** The version resolver *)
Section Resolver.
Context {G : Type} `{ProcessHost G}.

Lemma next_win64_absent (ds : list json) :
  forallb is_descriptor ds = true ->
  existsb is_win64 ds = false ->
  next_win64 ds = Ok JNull.
Proof.
  induction ds as [|d ds IH]; [reflexivity|].
  cbn [forallb existsb next_win64]. intros Hd Hw.
  apply andb_true_iff in Hd as [Hd Hds]. apply orb_false_iff in Hw as [Hw Hws].
  unfold is_win64 in Hw. destruct (getitem d "platform") as [p|e] eqn:Hp.
  - rewrite Hw. auto.
  - destruct d; try discriminate. unfold getitem, is_descriptor in *.
    destruct (dict_get kvs "platform"); discriminate.
Qed.

Lemma next_win64_present (ds : list json) (d : json) :
  forallb is_descriptor ds = true ->
  find is_win64 ds = Some d ->
  next_win64 ds = Ok d.
Proof.
  induction ds as [|x ds IH]; [discriminate|].
  cbn [forallb find next_win64]. intros Hd Hf.
  apply andb_true_iff in Hd as [Hd Hds].
  unfold is_win64 in Hf. destruct (getitem x "platform") as [p|e] eqn:Hp.
  - destruct (eq_str p "win64"); [congruence | auto].
  - destruct x; try discriminate. unfold getitem, is_descriptor in *.
    destruct (dict_get kvs "platform"); discriminate.
Qed.

Lemma descriptor_url (d : json) :
  is_descriptor d = true -> truthy d = true /\ exists url, getitem d "url" = Ok url.
Proof.
  destruct d as [| | | | |kvs]; try discriminate. unfold is_descriptor, getitem.
  destruct (dict_get kvs "platform") eqn:Hp; [|discriminate].
  destruct (dict_get kvs "url") as [u|]; [|discriminate]. intros _. split; [|eauto].
  destruct kvs; [discriminate | reflexivity].
Qed.

Lemma select_win64_absent (data version : json) (ds : list json) :
  stable_shape data version ds ->
  forallb is_descriptor ds = true ->
  existsb is_win64 ds = false ->
  select_win64 data = Raise (ValueError MSG_URL_NOT_FOUND).
Proof.
  intros (ch & st & dl & H1 & H2 & H3 & H4 & H5) Hd Hw. unfold select_win64.
  rewrite H1, H2, H3, H4, H5. cbn [iterate].
  rewrite next_win64_absent by assumption. reflexivity.
Qed.

Lemma next_win64_objects (ds : list json) :
  forallb is_object ds = true ->
  existsb is_win64 ds = false ->
  next_win64 ds = Ok JNull \/ next_win64 ds = Raise (KeyError "platform").
Proof.
  induction ds as [|d ds IH]; [left; reflexivity|].
  cbn [forallb existsb next_win64]. intros Hd Hw.
  apply andb_true_iff in Hd as [Hd Hds]. apply orb_false_iff in Hw as [Hw Hws].
  destruct d as [| | | | |kvs]; try discriminate. unfold is_win64, getitem in *.
  destruct (dict_get kvs "platform") as [p|]; [|right; reflexivity].
  rewrite Hw. auto.
Qed.

(** Objects without a "win64" platform: the selection fails with one of
    the two exceptions that [main] reports as a data-processing error. *)
Lemma select_win64_absent_objects (data version : json) (ds : list json) :
  stable_shape data version ds ->
  forallb is_object ds = true ->
  existsb is_win64 ds = false ->
  exists e, select_win64 data = Raise e /\ data_format_error e = true.
Proof.
  intros (ch & st & dl & H1 & H2 & H3 & H4 & H5) Hd Hw. unfold select_win64.
  rewrite H1, H2, H3, H4, H5. cbn [iterate].
  destruct (next_win64_objects ds Hd Hw) as [-> | ->]; eexists; split; reflexivity.
Qed.

Lemma descriptor_is_object (ds : list json) :
  forallb is_descriptor ds = true -> forallb is_object ds = true.
Proof.
  rewrite !forallb_forall. intros Hd x Hx. specialize (Hd x Hx).
  destruct x; try discriminate. reflexivity.
Qed.

Lemma select_win64_present (data version d : json) (ds : list json) :
  stable_shape data version ds ->
  forallb is_descriptor ds = true ->
  find is_win64 ds = Some d ->
  exists url, getitem d "url" = Ok url /\ select_win64 data = Ok (version, url).
Proof.
  intros (ch & st & dl & H1 & H2 & H3 & H4 & H5) Hd Hf.
  assert (Hdesc : is_descriptor d = true).
  { apply find_some in Hf as [Hin _]. rewrite forallb_forall in Hd. auto. }
  apply descriptor_url in Hdesc as (Ht & url & Hu). exists url. split; [exact Hu|].
  unfold select_win64. rewrite H1, H2, H3, H4, H5. cbn [iterate].
  rewrite (next_win64_present ds d) by assumption. rewrite Ht, Hu. reflexivity.
Qed.

(** A run of the resolver against a metadata reply: one log line, one
    request, and the selection made on the parsed body. *)
Lemma obter_ultima_versao_e_url_reply (w : World G) (data : json) :
  metadata_reply w data ->
  obter_ultima_versao_e_url w
  = (select_win64 data, with_sent w (S (w_sent w)),
     [EvLog LogQueryingApi; EvHttpGet JSON_URL false 15]).
Proof.
  intros (r & Hr & Hs & Hj). unfold status_ok in Hs. apply negb_true_iff in Hs.
  unfold obter_ultima_versao_e_url, bind, log, emit, requests_get, raise_for_status,
    response_json, lift, ret.
  rewrite Hr, Hs, Hj. cbn. destruct (select_win64 data); reflexivity.
Qed.

End Resolver.

Section ResolverInMain.
Context {G : Type} `{ProcessHost G}.

Lemma os_makedirs_run (path : string) (w : World G) :
  exists r fs, os_makedirs path w = (r, with_fs w fs, [EvMakedirs path])
               /\ (is_ok r = false -> fs = w_fs w).
Proof.
  unfold os_makedirs. destruct w as [cwd fs ls h http sent nt sha].
  destruct (resolve _ path) as [c|]; cbn [w_fs].
  - destruct (is_file fs c); [eexists _, fs; split; [reflexivity | reflexivity]|].
    destruct (existsb (is_file fs) (prefixes [] c));
      eexists _, _; (split; [reflexivity | try reflexivity; discriminate]).
  - eexists _, fs. split; reflexivity.
Qed.

Lemma metadata_reply_with_fs (w : World G) (fs : gmap (list string) Node) (data : json) :
  metadata_reply w data -> metadata_reply (with_fs w fs) data.
Proof. intros H0. exact H0. Qed.

(** When the resolver fails, [main] sends no request for an artifact. *)
Lemma main_resolver_fails (w : World G) (data : json) (e : PyExc)
      (CHROMEDRIVER_PATH : option string) :
  metadata_reply w data ->
  select_win64 data = Raise e ->
  Forall (fun ev => is_artifact_request ev = false) (trace (main CHROMEDRIVER_PATH w)).
Proof.
  intros Hrep Hsel. destruct CHROMEDRIVER_PATH as [[|c p]|].
  - cbn. repeat constructor.
  - destruct (os_makedirs_run (String c p) w) as (r & fs & Hmk & _).
    pose proof (obter_ultima_versao_e_url_reply _ _ (metadata_reply_with_fs w fs data Hrep))
      as Hob.
    rewrite Hsel in Hob.
    unfold main, bind. rewrite Hmk. destruct r as [[]|e'].
    + unfold try_except, main_try, bind, log, emit. rewrite Hob.
      unfold main_handler, log, emit.
      destruct (is_RequestException e); [repeat constructor|].
      destruct (is_ValueError e || is_KeyError e); repeat constructor.
    + repeat constructor.
  - cbn. repeat constructor.
Qed.


End ResolverInMain.


(** ** The publish step *)
Section Publish.
Context {G : Type} `{ProcessHost G}.

Lemma host_only_ret {A} (a : A) : host_only (ret a).
Proof. intros w. repeat split. constructor. Qed.

Lemma host_only_log (line : LogLine) : host_only (log line).
Proof. intros w. repeat split. repeat constructor. Qed.

Lemma host_only_subprocess_run (cmd : list string) (capture check : bool) :
  host_only (subprocess_run cmd capture check).
Proof.
  intros w. unfold subprocess_run.
  destruct (host_exec (w_host w) (cwd_path w) (w_fs w) cmd) as [o h].
  destruct o as [|rc out err]; [repeat split; repeat constructor|].
  destruct (check && negb (rc =? 0)); repeat split; repeat constructor.
Qed.

Lemma host_only_bind {A B} (m : M G A) (f : A -> M G B) :
  host_only m -> (forall a, host_only (f a)) -> host_only (bind m f).
Proof.
  intros Hm Hf w. specialize (Hm w). unfold bind.
  destruct (m w) as [[[a|e] w1] t1]; cbn [final trace fst snd] in *; [|exact Hm].
  destruct Hm as (Hc & Hfs & Ht). specialize (Hf a w1).
  destruct (f a w1) as [[r w2] t2]; cbn [final trace fst snd] in *.
  destruct Hf as (Hc2 & Hfs2 & Ht2). repeat split; try congruence.
  apply Forall_app. split; [exact Ht|].
  unfold cwd_path in *. rewrite Hc in Ht2. exact Ht2.
Qed.

Lemma host_only_if {A} (b : bool) (m1 m2 : M G A) :
  host_only m1 -> host_only m2 -> host_only (if b then m1 else m2).
Proof. destruct b; auto. Qed.

Ltac host_only :=
  repeat first
    [ apply host_only_bind; [|intros ?]
    | apply host_only_if
    | apply host_only_log
    | apply host_only_ret
    | apply host_only_subprocess_run ].

Lemma host_only_publish_body (files_to_add : list string) (tag message : string) :
  host_only (publish_body files_to_add tag message).
Proof. unfold publish_body. host_only. Qed.


Lemma cwd_path_clean (w : World G) :
  Forall (fun c => Path.clean c = true) (cwd_path w).
Proof. apply PathFacts.cwd_clean. Qed.

Lemma cwd_path_with_cwd (w : World G) (c : list string) :
  Forall (fun x => Path.clean x = true) c ->
  cwd_path (with_cwd w (Path.render c)) = c.
Proof. intros Hc. unfold cwd_path. cbn [w_cwd with_cwd]. apply PathFacts.walk_split_render, Hc. Qed.

Lemma os_chdir_cases (path : string) (w : World G) :
  (exists e, os_chdir path w = (Raise e, w, [EvChdir path]))
  \/ (exists c, resolve w path = Some c /\ is_dir (w_fs w) c = true
                /\ os_chdir path w = (Ok tt, with_cwd w (Path.render c), [EvChdir path])).
Proof.
  unfold os_chdir. destruct (resolve w path) as [c|]; [|left; eauto].
  destruct (is_dir (w_fs w) c) eqn:Hd; [right; eauto|].
  destruct (is_file (w_fs w) c); left; eauto.
Qed.

(** Going back to a directory that [os.getcwd] reported and that still
    exists. *)
Lemma os_chdir_back (w : World G) (c : list string) :
  Forall (fun x => Path.clean x = true) c ->
  is_dir (w_fs w) c = true ->
  os_chdir (Path.render c) w
  = (Ok tt, with_cwd w (Path.render c), [EvChdir (Path.render c)]).
Proof.
  intros Hc Hd. unfold os_chdir, resolve.
  rewrite PathFacts.resolve_render by exact Hc. rewrite Hd. reflexivity.
Qed.

(** [change_dir] around a body that only runs commands: the working
    directory and the file system are as before on every exit, and the
    commands ran in the directory the path names. *)
Lemma change_dir_frame {A} (path : string) (body : M G A) (w : World G) :
  host_only body ->
  cwd_path (final (change_dir path body w)) = cwd_path w
  /\ w_fs (final (change_dir path body w)) = w_fs w
  /\ forall cwd cmd out,
       In (EvRun cwd cmd out) (trace (change_dir path body w)) ->
       resolve w path = Some cwd.
Proof.
  intros Hbody. unfold change_dir, bind, os_getcwd.
  destruct (is_dir (w_fs w) (cwd_path w)) eqn:Hd; cbn [final trace fst snd];
    [|repeat split; intros ? ? ? []].
  unfold try_finally, bind.
  destruct (os_chdir_cases path w) as [[e He]|(c & Hc & Hdc & Hch)].
  - rewrite He. rewrite (os_chdir_back w _ (cwd_path_clean w) Hd).
    cbn [final trace fst snd app]. rewrite cwd_path_with_cwd by apply cwd_path_clean.
    repeat split. intros ? ? ? [Hin|[Hin|[]]]; discriminate.
  - rewrite Hch.
    assert (Hclean : Forall (fun x => Path.clean x = true) c).
    { eapply PathFacts.resolve_clean; [apply cwd_path_clean | exact Hc]. }
    specialize (Hbody (with_cwd w (Path.render c))).
    destruct (body (with_cwd w (Path.render c))) as [[r w2] t2].
    cbn [final trace fst snd] in Hbody. destruct Hbody as (Hcwd & Hfs & Hev).
    rewrite cwd_path_with_cwd in Hev by exact Hclean.
    cbn [w_fs with_fs with_cwd] in Hfs.
    assert (Hback : os_chdir (Path.render (cwd_path w)) w2
                    = (Ok tt, with_cwd w2 (Path.render (cwd_path w)),
                       [EvChdir (Path.render (cwd_path w))])).
    { apply os_chdir_back; [apply cwd_path_clean | rewrite Hfs; exact Hd]. }
    rewrite Hback.
    assert (Hruns : forall cwd cmd out,
               In (EvRun cwd cmd out)
                  ([EvChdir path] ++ t2 ++ [EvChdir (Path.render (cwd_path w))]) ->
               resolve w path = Some cwd).
    { intros cwd cmd out Hin. rewrite !in_app_iff in Hin.
      destruct Hin as [[Hin|[]]|[Hin|[Hin|[]]]]; try discriminate.
      rewrite List.Forall_forall in Hev. specialize (Hev _ Hin). cbn in Hev. congruence. }
    destruct r as [a|e]; cbn [final trace fst snd];
      (split; [apply cwd_path_with_cwd, cwd_path_clean|]);
      (split; [exact Hfs|]); intros cwd cmd out Hin; apply (Hruns cwd cmd out);
      rewrite <- ?app_assoc in *; cbn [app] in *; exact Hin.
Qed.

(** The [except] clauses of the publish step only add log lines. *)
Lemma publish_handler_frame (m : M G unit) (w : World G) :
  final (try_except m publish_handler w) = final (m w)
  /\ exists ls, trace (try_except m publish_handler w) = trace (m w) ++ map EvLog ls.
Proof.
  unfold try_except. destruct (m w) as [[[[]|e] w1] t1]; cbn [final trace fst snd].
  - split; [reflexivity|]. exists []. rewrite app_nil_r. reflexivity.
  - destruct e; cbn; (split; [reflexivity|]);
      first [ exists []; rewrite app_nil_r; reflexivity
            | eexists [_]; reflexivity
            | eexists [_; _]; reflexivity ].
Qed.

(** The publish step and the state around it: working directory and
    file system are as before on every exit, and the commands ran in the
    directory the path names. *)
Lemma git_push_com_tag_frame (w : World G) (repo_path : string)
        (files_to_add : list string) (tag message : string) :
  cwd_path (final (git_push_com_tag repo_path files_to_add tag message w)) = cwd_path w
  /\ w_fs (final (git_push_com_tag repo_path files_to_add tag message w)) = w_fs w
  /\ forall cwd cmd out,
       In (EvRun cwd cmd out) (trace (git_push_com_tag repo_path files_to_add tag message w)) ->
       resolve w repo_path = Some cwd.
Proof.
  unfold git_push_com_tag.
  destruct (publish_handler_frame
              (change_dir repo_path (publish_body files_to_add tag message)) w)
    as (Hfinal & ls & Htrace).
  destruct (change_dir_frame repo_path (publish_body files_to_add tag message) w
              (host_only_publish_body files_to_add tag message))
    as (Hcwd & Hfs & Hruns).
  rewrite Hfinal, Htrace. repeat split; try assumption.
  intros cwd cmd out Hin. apply in_app_iff in Hin as [Hin|Hin]; [eauto|].
  apply in_map_iff in Hin as (l & Hl & _). discriminate.
Qed.


Lemma os_chdir_missing (w : World G) (path : string) :
  path_missing w path = true ->
  os_chdir path w = (Raise (FileNotFoundError path), w, [EvChdir path]).
Proof.
  unfold path_missing, os_chdir. destruct (resolve w path) as [c|]; [|reflexivity].
  intros Hc. apply bool_decide_eq_true in Hc.
  unfold is_dir, is_file. rewrite Hc. reflexivity.
Qed.

Lemma publish_body_missing_executable (w : World G) (files_to_add : list string)
      (tag message : string) :
  fst (host_exec (w_host w) (cwd_path w) (w_fs w)
                 (["git"; "status"; "--porcelain"] ++ files_to_add))
  = ExecutableMissing ->
  exists h,
    publish_body files_to_add tag message w
    = (Raise (FileNotFoundError "git"), with_host w h,
       [EvRun (cwd_path w) (["git"; "status"; "--porcelain"] ++ files_to_add)
              ExecutableMissing]).
Proof.
  intros Hexec. unfold publish_body, bind, subprocess_run.
  destruct (host_exec (w_host w) (cwd_path w) (w_fs w) _) as [o h].
  cbn [fst] in Hexec. subst o. exists h. reflexivity.
Qed.

(** The step on an existing directory when launching the first command
    finds no executable. *)
Lemma missing_executable_run (w : World G) (repo_path : string) (c : list string)
      (files_to_add : list string) (tag message : string) :
  resolve w repo_path = Some c ->
  is_dir (w_fs w) c = true ->
  fst (host_exec (w_host w) c (w_fs w)
                 (["git"; "status"; "--porcelain"] ++ files_to_add))
  = ExecutableMissing ->
  outcome (git_push_com_tag repo_path files_to_add tag message w) = Ok tt
  /\ log_lines (trace (git_push_com_tag repo_path files_to_add tag message w))
     = [LogGitNotFound].
Proof.
  intros Hc Hdir Hexec.
  unfold git_push_com_tag, try_except, change_dir, bind, os_getcwd.
  destruct (is_dir (w_fs w) (cwd_path w)) eqn:Hd; [|split; reflexivity].
  unfold try_finally, bind.
  assert (Hch : os_chdir repo_path w
                = (Ok tt, with_cwd w (Path.render c), [EvChdir repo_path])).
  { unfold os_chdir. rewrite Hc, Hdir. reflexivity. }
  rewrite Hch.
  assert (Hclean : Forall (fun x => Path.clean x = true) c).
  { eapply PathFacts.resolve_clean; [apply cwd_path_clean | exact Hc]. }
  destruct (publish_body_missing_executable (with_cwd w (Path.render c))
              files_to_add tag message) as (h & Hbody).
  { rewrite cwd_path_with_cwd by exact Hclean. exact Hexec. }
  rewrite Hbody.
  rewrite os_chdir_back; [split; reflexivity | apply cwd_path_clean | exact Hd].
Qed.


End Publish.


(** ** The orchestrator *)
Section Orchestrator.
Context {G : Type} `{ProcessHost G}.

Lemma main_unfold (p : string) :
  p <> "" ->
  main (Some p)
  = (os_makedirs p ;;
     try_except (main_try p (Path.join p ZIP_NAME) (Path.join p VERSION_FILE))
                main_handler)%script.
Proof. destruct p; [contradiction | reflexivity]. Qed.

(** Every exception raised inside the [try] block of [main] ends in a
    log line. *)
Lemma try_except_main_handler (m : M G unit) (w : World G) :
  outcome (try_except m main_handler w) = Ok tt.
Proof.
  unfold try_except. destruct (m w) as [[[[]|e] w1] t1]; [reflexivity|].
  unfold main_handler. destruct (is_RequestException e); [reflexivity|].
  destruct (is_ValueError e || is_KeyError e); reflexivity.
Qed.

(** Once the directory is there, [main] returns normally whatever
    happens next; so it does when the configuration is missing. *)
Lemma main_returns_normally (w : World G) (CHROMEDRIVER_PATH : option string) :
  match CHROMEDRIVER_PATH with
  | Some p => p = "" \/ outcome (os_makedirs p w) = Ok tt
  | None => True
  end ->
  outcome (main CHROMEDRIVER_PATH w) = Ok tt.
Proof.
  destruct CHROMEDRIVER_PATH as [p|]; [|reflexivity].
  intros [->|Hmk]; [reflexivity|].
  destruct p as [|c p]; [reflexivity|].
  rewrite main_unfold by discriminate. unfold bind.
  destruct (os_makedirs (String c p) w) as [[[[]|e] w1] t1]; [|discriminate].
  pose proof (try_except_main_handler
                (main_try (String c p) (Path.join (String c p) ZIP_NAME)
                          (Path.join (String c p) VERSION_FILE)) w1) as Hok.
  destruct (try_except _ main_handler w1) as [[r w2] t2]. exact Hok.
Qed.

Lemma obter_ultima_versao_e_url_run (w : World G) :
  exists r, obter_ultima_versao_e_url w
            = (r, with_sent w (S (w_sent w)),
               [EvLog LogQueryingApi; EvHttpGet JSON_URL false 15]).
Proof.
  unfold obter_ultima_versao_e_url, bind, log, emit, requests_get.
  destruct (w_http w (w_sent w) JSON_URL) as [d|r]; [eexists; reflexivity|].
  unfold raise_for_status.
  destruct ((400 <=? status_code r) && (status_code r <? 600)); [eexists; reflexivity|].
  unfold ret, response_json. destruct (json_body r) as [v|]; [|eexists; reflexivity].
  unfold ret, lift. eexists; reflexivity.
Qed.

Lemma ler_versao_salva_run (path : string) (w : World G) :
  exists r, ler_versao_salva path w = (r, w, []).
Proof.
  unfold ler_versao_salva, bind, os_path_exists.
  destruct (resolve w path) as [c|] eqn:Hc; [|eexists; reflexivity].
  destruct (bool_decide (is_Some (node_at (w_fs w) c))); [|eexists; reflexivity].
  unfold read_text, read_binary, bind. rewrite Hc.
  destruct (node_at (w_fs w) c) as [[|d]|]; eexists; reflexivity.
Qed.

(** C1: in every run in which the directory is in place, the resolver
    returns a version and the marker read equals it, [main] returns
    normally and its whole trace is: the directory creation, the start
    line, the resolver's line and its one metadata request, the two
    version lines and the up-to-date line.  There is no artifact request,
    no file is opened or written, no command is run, no notification is
    sent; the file system is the one left by the directory creation and
    the host's programs are untouched. *)
Theorem C1_up_to_date_no_side_effects (w : World G) (p : string)
        (versao_recente url : json) (versao_salva : option string) :
  p <> "" ->
  outcome (os_makedirs p w) = Ok tt ->
  outcome (obter_ultima_versao_e_url (final (os_makedirs p w)))
  = Ok (versao_recente, url) ->
  outcome (ler_versao_salva (Path.join p VERSION_FILE)
             (final (obter_ultima_versao_e_url (final (os_makedirs p w)))))
  = Ok versao_salva ->
  eq_saved versao_salva versao_recente = true ->
  outcome (main (Some p) w) = Ok tt
  /\ trace (main (Some p) w)
     = [EvMakedirs p; EvLog LogStart; EvLog LogQueryingApi;
        EvHttpGet JSON_URL false 15; EvLog (LogLatestFound versao_recente);
        EvLog (LogSavedVersion (saved_or_none versao_salva)); EvLog LogUpToDate]
  /\ w_fs (final (main (Some p) w)) = w_fs (final (os_makedirs p w))
  /\ w_host (final (main (Some p) w)) = w_host w
  /\ w_cwd (final (main (Some p) w)) = w_cwd w.
Proof.
  intros Hp Hmk Hob Hler Heq.
  destruct (os_makedirs_run p w) as (r0 & fs & Hrun & _). rewrite Hrun in *.
  cbn [outcome final fst snd] in *. subst r0.
  destruct (obter_ultima_versao_e_url_run (with_fs w fs)) as (r1 & Hrun1).
  rewrite Hrun1 in *. cbn [outcome final fst snd] in *. subst r1.
  destruct (ler_versao_salva_run (Path.join p VERSION_FILE)
              (with_sent (with_fs w fs) (S (w_sent (with_fs w fs))))) as (r2 & Hrun2).
  rewrite Hrun2 in *. cbn [outcome final fst snd] in *. subst r2.
  assert (Hmain : main (Some p) w
            = (Ok tt, with_sent (with_fs w fs) (S (w_sent (with_fs w fs))),
               [EvMakedirs p; EvLog LogStart; EvLog LogQueryingApi;
                EvHttpGet JSON_URL false 15; EvLog (LogLatestFound versao_recente);
                EvLog (LogSavedVersion (saved_or_none versao_salva));
                EvLog LogUpToDate])).
  { rewrite main_unfold by exact Hp. unfold bind at 1. rewrite Hrun.
    unfold try_except, main_try, bind, log, emit. rewrite Hrun1, Hrun2.
    cbn [fst snd]. rewrite Heq. reflexivity. }
  rewrite Hmain. repeat split.
Qed.

Lemma mkdir_all_keeps (ps : list (list string)) (fs : gmap (list string) Node)
      (a : list string) :
  fs !! a = Some Dir -> mkdir_all fs ps !! a = Some Dir.
Proof.
  unfold mkdir_all. revert fs. induction ps as [|q ps IH]; intros fs Ha; [exact Ha|].
  cbn [fold_left]. apply IH. destruct (decide (q = a)) as [->|Hne].
  - apply lookup_insert_eq.
  - rewrite lookup_insert_ne by exact Hne. exact Ha.
Qed.

Lemma mkdir_all_lookup (ps : list (list string)) (fs : gmap (list string) Node)
      (a : list string) :
  In a ps -> mkdir_all fs ps !! a = Some Dir.
Proof.
  revert fs. induction ps as [|q ps IH]; intros fs Ha; [destruct Ha|].
  destruct Ha as [->|Ha].
  - apply (mkdir_all_keeps ps (<[a := Dir]> fs)). apply lookup_insert_eq.
  - apply (IH (<[q := Dir]> fs)), Ha.
Qed.

Lemma mkdir_all_id (ps : list (list string)) (fs : gmap (list string) Node) :
  Forall (fun a => fs !! a = Some Dir) ps -> mkdir_all fs ps = fs.
Proof.
  unfold mkdir_all. induction 1 as [|q ps Hq _ IH]; [reflexivity|].
  cbn [fold_left]. rewrite insert_id by exact Hq. exact IH.
Qed.

Lemma prefixes_not_nil (acc c a : list string) : In a (prefixes acc c) -> a <> [].
Proof.
  revert acc. induction c as [|x c IH]; intros acc Ha; [destruct Ha|].
  destruct Ha as [<-|Ha]; [destruct acc; discriminate | eauto].
Qed.

Lemma prefixes_whole (acc c : list string) : c <> [] -> In (acc ++ c) (prefixes acc c).
Proof.
  revert acc. induction c as [|x c IH]; intros acc Hc; [contradiction|].
  cbn [prefixes]. destruct c as [|y c]; [left; reflexivity|].
  right. replace (acc ++ x :: y :: c) with ((acc ++ [x]) ++ y :: c)
    by (rewrite <- app_assoc; reflexivity).
  apply IH. discriminate.
Qed.

Lemma is_dir_lookup (fs : gmap (list string) Node) (a : list string) :
  a <> [] -> is_dir fs a = true <-> fs !! a = Some Dir.
Proof.
  intros Ha. destruct a as [|x a]; [contradiction|]. unfold is_dir, node_at.
  destruct (fs !! (x :: a)) as [[|d]|]; split; congruence.
Qed.

Lemma is_dir_not_file (fs : gmap (list string) Node) (a : list string) :
  is_dir fs a = true -> is_file fs a = false.
Proof. unfold is_dir, is_file. destruct (node_at fs a) as [[|d]|]; congruence. Qed.

Lemma with_fs_same (w : World G) : with_fs w (w_fs w) = w.
Proof. destruct w; reflexivity. Qed.


End Orchestrator.

(** C6, at the failing input: with a regular file where the configured
    directory should be, [os.makedirs] raises FileExistsError before the
    [try] block is entered and the exception leaves [main]. *)
Lemma C6_makedirs_error_escapes :
  main (Some "/repo") Scenario.blocked_world
  = (Raise (FileExistsError "/repo"), Scenario.blocked_world, [EvMakedirs "/repo"]).
Proof. reflexivity. Qed.

Lemma C1_up_to_date_no_side_effects_witness :
  outcome (main (Some "/repo") Scenario.current_world) = Ok tt
  /\ trace (main (Some "/repo") Scenario.current_world)
     = [EvMakedirs "/repo"; EvLog LogStart; EvLog LogQueryingApi;
        EvHttpGet JSON_URL false 15; EvLog (LogLatestFound (JStr "131.0.6778.204"));
        EvLog (LogSavedVersion "131.0.6778.204"); EvLog LogUpToDate].
Proof.
  pose proof (C1_up_to_date_no_side_effects Scenario.current_world "/repo"
                (JStr "131.0.6778.204") (JStr "https://host/win64.zip")
                (Some "131.0.6778.204") ltac:(discriminate)
                eq_refl eq_refl eq_refl eq_refl) as (Hout & Htrace & _).
  split; assumption.
Defined.


(** ** Failures of the publish step *)
Section PublishFailures.
Context {G : Type} `{ProcessHost G}.

Lemma bind_run {A B} (m : M G A) (f : A -> M G B) (w : World G) :
  bind m f w
  = match outcome (m w) with
    | Ok a => (outcome (f a (final (m w))), final (f a (final (m w))),
               trace (m w) ++ trace (f a (final (m w))))
    | Raise e => (Raise e, final (m w), trace (m w))
    end.
Proof.
  unfold bind. destruct (m w) as [[[a|e] w1] t1]; cbn [outcome final trace fst snd];
    [|reflexivity].
  destruct (f a w1) as [[r w2] t2]. reflexivity.
Qed.

Lemma raises_only_bind {A B} (P : PyExc -> Prop) (m : M G A) (f : A -> M G B) :
  raises_only P m -> (forall a, raises_only P (f a)) -> raises_only P (bind m f).
Proof.
  intros Hm Hf w e. rewrite bind_run. specialize (Hm w).
  destruct (outcome (m w)) as [a|e'] eqn:Ho; cbn [outcome fst].
  - apply Hf.
  - intros [= <-]. apply Hm. reflexivity.
Qed.

Lemma raises_only_log (P : PyExc -> Prop) (line : LogLine) : raises_only P (log (G:=G) line).
Proof. intros w e. discriminate. Qed.

Lemma raises_only_if {A} (P : PyExc -> Prop) (b : bool) (m1 m2 : M G A) :
  raises_only P m1 -> raises_only P m2 -> raises_only P (if b then m1 else m2).
Proof. destruct b; auto. Qed.

Lemma raises_only_subprocess_run (cmd : list string) (capture check : bool) :
  raises_only command_failure (subprocess_run cmd capture check).
Proof.
  intros w e. unfold subprocess_run.
  destruct (host_exec (w_host w) (cwd_path w) (w_fs w) cmd) as [o h].
  destruct o as [|rc out err]; [intros [= <-]; reflexivity|].
  destruct (check && negb (rc =? 0)); [intros [= <-]; reflexivity | discriminate].
Qed.

Lemma raises_only_publish_body (files_to_add : list string) (tag message : string) :
  raises_only command_failure (publish_body files_to_add tag message).
Proof.
  unfold publish_body.
  repeat first
    [ apply raises_only_bind; [|intros ?]
    | apply raises_only_if
    | apply raises_only_log
    | apply raises_only_subprocess_run ].
Qed.

(** The publish step never passes a command failure on to its caller:
    it returns normally, unless [repo_path] names a regular file, which
    [os.chdir] refuses with NotADirectoryError. *)
Lemma git_push_com_tag_outcome (w : World G) (repo_path : string)
      (files_to_add : list string) (tag message : string) :
  outcome (git_push_com_tag repo_path files_to_add tag message w) = Ok tt
  \/ outcome (git_push_com_tag repo_path files_to_add tag message w)
     = Raise (NotADirectoryError repo_path).
Proof.
  unfold git_push_com_tag, try_except, change_dir, bind, os_getcwd.
  destruct (is_dir (w_fs w) (cwd_path w)) eqn:Hd; [|left; reflexivity].
  unfold try_finally, bind.
  destruct (os_chdir_cases repo_path w) as [[e He]|(c & Hc & Hdc & Hch)].
  - rewrite He, (os_chdir_back w _ (cwd_path_clean w) Hd).
    unfold os_chdir in He. destruct (resolve w repo_path) as [c|].
    + destruct (is_dir (w_fs w) c); [discriminate|].
      destruct (is_file (w_fs w) c); injection He as <-; [right | left]; reflexivity.
    + injection He as <-. left. reflexivity.
  - rewrite Hch.
    pose proof (raises_only_publish_body files_to_add tag message
                  (with_cwd w (Path.render c))) as Hraise.
    pose proof (host_only_publish_body files_to_add tag message
                  (with_cwd w (Path.render c))) as (_ & Hfs & _).
    destruct (publish_body files_to_add tag message (with_cwd w (Path.render c)))
      as [[r w2] t2].
    cbn [outcome final fst snd w_fs with_cwd] in *.
    rewrite os_chdir_back; [|apply cwd_path_clean | rewrite Hfs; exact Hd].
    destruct r as [[]|e]; [left; reflexivity|].
    specialize (Hraise e eq_refl). unfold command_failure in Hraise.
    destruct e; try discriminate; left; reflexivity.
Qed.

(** After the publish step has returned, [main] goes on to the
    notification: the rest of its [try] block is the notification and
    the closing line. *)
Lemma notification_follows_publish (w : World G) (repo_path tag message title text : string)
      (files_to_add : list string) :
  outcome (git_push_com_tag repo_path files_to_add tag message w) = Ok tt ->
  In (EvNotify title text)
     (trace ((git_push_com_tag repo_path files_to_add tag message ;;
              notificar title text ;; log LogDone)%script w)).
Proof.
  intros Hok. rewrite bind_run, Hok. cbn [trace snd]. apply in_app_iff. right.
  rewrite bind_run. unfold notificar, try_except, notification_notify.
  destruct (w_notifier _ title text); cbn; auto.
Qed.

End PublishFailures.

(** C2, at the failing input: the working tree has changes and
    [git add] exits with status 1, writing a message to its standard
    error.  The step returns normally and logs the error, but the
    command ran without [capture_output], so the exception holds no
    standard-error text and the last log line is "Stderr: None". *)
Lemma C2_uncaptured_stderr_is_lost :
  outcome (git_push_com_tag "/repo" [ZIP_NAME; VERSION_FILE] "v131.0.6778.204" "m"
                            Scenario.faulty_world) = Ok tt
  /\ run_outcomes (trace (git_push_com_tag "/repo" [ZIP_NAME; VERSION_FILE]
                                           "v131.0.6778.204" "m" Scenario.faulty_world))
     = [Exited 0 ("?? chromedriver-win64.zip" +:+ String PyStr.LF
                  ("?? version.txt" +:+ String PyStr.LF "")) "";
        Exited 1 "" Scenario.lock_message]
  /\ log_lines (trace (git_push_com_tag "/repo" [ZIP_NAME; VERSION_FILE]
                                        "v131.0.6778.204" "m" Scenario.faulty_world))
     = [LogChangesDetected;
        LogGitError (CalledProcessError 1 ["git"; "add"; ZIP_NAME; VERSION_FILE] None);
        LogStderr None].
Proof. repeat split. Qed.

(** ** Runs of the publish step *)
Section PublishRuns.
Context {G : Type} `{ProcessHost G}.

Lemma run_outcomes_app (t1 t2 : list Event) :
  run_outcomes (t1 ++ t2) = run_outcomes t1 ++ run_outcomes t2.
Proof. apply flat_map_app. Qed.

Lemma commands_app (t1 t2 : list Event) : commands (t1 ++ t2) = commands t1 ++ commands t2.
Proof. apply flat_map_app. Qed.

Lemma commands_logs (ls : list LogLine) : commands (map EvLog ls) = [].
Proof. induction ls; [reflexivity | assumption]. Qed.

Lemma run_outcomes_logs (ls : list LogLine) : run_outcomes (map EvLog ls) = [].
Proof. induction ls; [reflexivity | assumption]. Qed.

(** When the step cannot enter the directory, it runs nothing. *)
Lemma git_push_com_tag_skips (w : World G) (repo_path : string)
      (files_to_add : list string) (tag message : string) :
  body_runs w repo_path = false ->
  commands (trace (git_push_com_tag repo_path files_to_add tag message w)) = []
  /\ run_outcomes (trace (git_push_com_tag repo_path files_to_add tag message w)) = []
  /\ w_host (final (git_push_com_tag repo_path files_to_add tag message w)) = w_host w.
Proof.
  unfold body_runs. intros Hb.
  destruct (publish_handler_frame
              (change_dir repo_path (publish_body files_to_add tag message)) w)
    as (Hfinal & ls & Htrace).
  unfold git_push_com_tag. rewrite Hfinal, Htrace, commands_app, run_outcomes_app,
    commands_logs, run_outcomes_logs, !app_nil_r.
  unfold change_dir, bind, os_getcwd.
  destruct (is_dir (w_fs w) (cwd_path w)) eqn:Hd; [|repeat split].
  cbn [andb] in Hb. unfold try_finally, bind.
  assert (Hch : exists e, os_chdir repo_path w = (Raise e, w, [EvChdir repo_path])).
  { unfold os_chdir. destruct (resolve w repo_path) as [c|]; [|eauto].
    rewrite Hb. destruct (is_file (w_fs w) c); eauto. }
  destruct Hch as [e ->]. rewrite (os_chdir_back w _ (cwd_path_clean w) Hd).
  repeat split.
Qed.

(** When it can, its commands are those of [publish_body], run from the
    directory. *)
Lemma git_push_com_tag_runs (w : World G) (repo_path : string) (c : list string)
      (files_to_add : list string) (tag message : string) :
  body_runs w repo_path = true ->
  resolve w repo_path = Some c ->
  commands (trace (git_push_com_tag repo_path files_to_add tag message w))
  = commands (trace (publish_body files_to_add tag message (with_cwd w (Path.render c))))
  /\ run_outcomes (trace (git_push_com_tag repo_path files_to_add tag message w))
     = run_outcomes (trace (publish_body files_to_add tag message
                                         (with_cwd w (Path.render c))))
  /\ w_host (final (git_push_com_tag repo_path files_to_add tag message w))
     = w_host (final (publish_body files_to_add tag message (with_cwd w (Path.render c))))
  /\ cwd_path (with_cwd w (Path.render c)) = c.
Proof.
  unfold body_runs. intros Hb Hc. rewrite Hc in Hb. apply andb_true_iff in Hb as [Hd Hdc].
  assert (Hclean : Forall (fun x => Path.clean x = true) c).
  { exact (PathFacts.resolve_clean (cwd_path w) repo_path c (cwd_path_clean w) Hc). }
  destruct (publish_handler_frame
              (change_dir repo_path (publish_body files_to_add tag message)) w)
    as (Hfinal & ls & Htrace).
  unfold git_push_com_tag. rewrite Hfinal, Htrace, commands_app, run_outcomes_app,
    commands_logs, run_outcomes_logs, !app_nil_r.
  unfold change_dir, bind, os_getcwd. rewrite Hd. unfold try_finally, bind.
  assert (Hch : os_chdir repo_path w
                = (Ok tt, with_cwd w (Path.render c), [EvChdir repo_path])).
  { unfold os_chdir. rewrite Hc, Hdc. reflexivity. }
  rewrite Hch.
  pose proof (host_only_publish_body files_to_add tag message
                (with_cwd w (Path.render c))) as (_ & Hfs & _).
  destruct (publish_body files_to_add tag message (with_cwd w (Path.render c)))
    as [[r w2] t2].
  cbn [final fst snd w_fs with_cwd] in Hfs.
  rewrite os_chdir_back; [|apply cwd_path_clean | rewrite Hfs; exact Hd].
  cbn [final trace fst snd app].
  rewrite cwd_path_with_cwd by exact Hclean.
  destruct r; cbn [final trace fst snd app commands run_outcomes flat_map];
    rewrite ?commands_app, ?run_outcomes_app, ?app_nil_r; repeat split.
Qed.

Lemma body_runs_after (w : World G) (repo_path : string)
      (files_to_add : list string) (tag message : string) :
  body_runs (final (git_push_com_tag repo_path files_to_add tag message w)) repo_path
  = body_runs w repo_path
  /\ resolve (final (git_push_com_tag repo_path files_to_add tag message w)) repo_path
     = resolve w repo_path.
Proof.
  destruct (git_push_com_tag_frame w repo_path files_to_add tag message)
    as (Hcwd & Hfs & _).
  unfold body_runs, resolve. rewrite Hcwd, Hfs. split; reflexivity.
Qed.

Lemma keeps_host_bind {A B} (I : G -> Prop) (m : M G A) (f : A -> M G B) :
  keeps_host I m -> (forall a, keeps_host I (f a)) -> keeps_host I (bind m f).
Proof.
  intros Hm Hf w Hw. rewrite bind_run. specialize (Hm w Hw).
  destruct (outcome (m w)); cbn [final fst snd]; [apply Hf|]; exact Hm.
Qed.

Lemma keeps_host_log (I : G -> Prop) (line : LogLine) : keeps_host I (log line).
Proof. intros w Hw. exact Hw. Qed.

Lemma keeps_host_if {A} (I : G -> Prop) (b : bool) (m1 m2 : M G A) :
  keeps_host I m1 -> keeps_host I m2 -> keeps_host I (if b then m1 else m2).
Proof. destruct b; auto. Qed.

Lemma keeps_host_subprocess_run (I : G -> Prop) (cmd : list string) (capture check : bool) :
  (forall g c fs, I g -> I (snd (host_exec g c fs cmd))) ->
  keeps_host I (subprocess_run cmd capture check).
Proof.
  intros Hexec w Hw. unfold subprocess_run. specialize (Hexec _ (cwd_path w) (w_fs w) Hw).
  destruct (host_exec (w_host w) (cwd_path w) (w_fs w) cmd) as [o h].
  destruct o as [|rc out err]; [exact Hexec|].
  destruct (check && negb (rc =? 0)); exact Hexec.
Qed.

Lemma keeps_host_publish_body (I : G -> Prop) (files_to_add : list string)
      (tag message : string) :
  (forall g c fs cmd, I g -> I (snd (host_exec g c fs cmd))) ->
  keeps_host I (publish_body files_to_add tag message).
Proof.
  intros Hexec. unfold publish_body.
  repeat first
    [ apply keeps_host_bind; [|intros ?]
    | apply keeps_host_if
    | apply keeps_host_log
    | apply keeps_host_subprocess_run; intros; apply Hexec; assumption ].
Qed.

(** A property that every program of the host keeps is kept by the
    publish step. *)
Lemma keeps_host_git_push_com_tag (I : G -> Prop) (repo_path : string)
      (files_to_add : list string) (tag message : string) :
  (forall g c fs cmd, I g -> I (snd (host_exec g c fs cmd))) ->
  keeps_host I (git_push_com_tag repo_path files_to_add tag message).
Proof.
  intros Hexec w Hw. destruct (body_runs w repo_path) eqn:Hb.
  - destruct (resolve w repo_path) as [c|] eqn:Hc.
    + destruct (git_push_com_tag_runs w repo_path c files_to_add tag message Hb Hc)
        as (_ & _ & -> & _).
      apply keeps_host_publish_body; assumption.
    + unfold body_runs in Hb. rewrite Hc, andb_false_r in Hb. discriminate.
  - destruct (git_push_com_tag_skips w repo_path files_to_add tag message Hb)
      as (_ & _ & ->). exact Hw.
Qed.

End PublishRuns.

(** ** The reference git *)
Module RefGitFacts.
Import PyStr RefGit.

Lemma ref_char_plain (c : ascii) :
  ref_char c = true -> Ascii.eqb c CR = false /\ Ascii.eqb c LF = false
                       /\ is_linebreak c = false.
Proof.
  unfold ref_char, is_linebreak, code. intros Hc.
  apply andb_true_iff in Hc as [Hc _]. apply andb_true_iff in Hc as [Hlo Hhi].
  apply N.leb_le in Hlo. apply N.leb_le in Hhi.
  repeat split.
  - destruct (Ascii.eqb_spec c CR) as [->|]; [|reflexivity]. cbn in Hlo. lia.
  - destruct (Ascii.eqb_spec c LF) as [->|]; [|reflexivity]. cbn in Hlo. lia.
  - destruct (N.leb_spec 10 (N_of_ascii c)); destruct (N.leb_spec (N_of_ascii c) 13);
      destruct (N.leb_spec 28 (N_of_ascii c)); destruct (N.leb_spec (N_of_ascii c) 30);
      destruct (N.eqb_spec (N_of_ascii c) 133); cbn; try reflexivity; lia.
Qed.

(** A line of reference characters followed by a newline is one line. *)
Lemma splitlines_line (t rest : string) :
  all_ref_chars t = true ->
  splitlines (t +:+ String LF rest) = t :: splitlines rest.
Proof.
  induction t as [|c t IH]; intros Ht.
  - reflexivity.
  - cbn [all_ref_chars] in Ht. apply andb_true_iff in Ht as [Hc Ht].
    apply ref_char_plain in Hc as (Hcr & _ & Hlb).
    rewrite PathFacts.append_cons. cbn [splitlines]. rewrite Hcr, Hlb, IH by exact Ht.
    reflexivity.
Qed.

(** Whatever precedes a newline, the lines after it are those of the
    rest. *)
Lemma splitlines_app_LF (x rest : string) :
  exists l ls, splitlines (x +:+ String LF rest) = (l :: ls) ++ splitlines rest.
Proof.
  remember (String.length x) as n eqn:Hn.
  assert (Hle : (String.length x <= n)%nat) by lia. clear Hn.
  revert x Hle. induction n as [|n IH]; intros x Hle.
  { destruct x; [|cbn [String.length] in Hle; lia]. exists "", []. reflexivity. }
  destruct x as [|c x]; [exists "", []; reflexivity|].
  cbn [String.length] in Hle. rewrite PathFacts.append_cons. cbn [splitlines].
  destruct (Ascii.eqb c CR).
  - destruct x as [|d x].
    + rewrite PathFacts.append_nil_l. exists "", []. reflexivity.
    + rewrite PathFacts.append_cons. cbn [String.length] in Hle.
      destruct (Ascii.eqb d LF).
      * destruct (IH x ltac:(lia)) as (l & ls & ->). exists "", (l :: ls). reflexivity.
      * rewrite <- PathFacts.append_cons.
        destruct (IH (String d x) ltac:(cbn [String.length]; lia)) as (l & ls & ->).
        exists "", (l :: ls). reflexivity.
  - destruct (IH x ltac:(lia)) as (l & ls & ->).
    destruct (is_linebreak c); [exists "", (l :: ls) | exists (String c l), ls]; reflexivity.
Qed.

Lemma valid_ref_chars (t : string) : valid_ref t = true -> all_ref_chars t = true.
Proof. unfold valid_ref. intros Ht. apply andb_true_iff in Ht as [_ Ht]. exact Ht. Qed.

(** A valid tag is one of the lines of the tag listing. *)
Lemma tag_listed (tags : list string) (t : string) :
  valid_ref t = true -> In t tags -> In t (splitlines (tag_listing tags)).
Proof.
  intros Ht. induction tags as [|x tags IH]; intros Hin; [destruct Hin|].
  cbn [tag_listing]. destruct (String.eqb_spec x t) as [->|Hne].
  - rewrite splitlines_line by apply valid_ref_chars, Ht. left. reflexivity.
  - destruct Hin as [->|Hin]; [contradiction|].
    destruct (splitlines_app_LF x (tag_listing tags)) as (l & ls & ->).
    apply in_app_iff. right. apply IH, Hin.
Qed.

(** *** Single commands *)

Lemma exec_succeeded (g : Repo) (c : list string) (fs : gmap (list string) Node)
      (args : list string) :
  succeeded (fst (exec g c fs ("git" :: args))) = true ->
  git_installed g = true /\ c = git_root g
  /\ exec g c fs ("git" :: args)
     = run (with_faults g (tail (git_faults g))) c fs args.
Proof.
  unfold exec. cbn [String.eqb Ascii.eqb Bool.eqb negb orb].
  destruct (git_installed g); cbn [negb orb]; [|discriminate].
  destruct (git_faults g) as [|[err|] later]; cbn [tail git_root with_faults];
    try discriminate;
    (destruct (bool_decide (c = git_root g)) eqn:Hc; [|discriminate]);
    apply bool_decide_eq_true in Hc; auto.
Qed.

Lemma run_status (g : Repo) (c : list string) (fs : gmap (list string) Node)
      (files : list string) :
  run g c fs ("status" :: "--porcelain" :: files) = (Exited 0 (status g c fs files) "", g).
Proof. reflexivity. Qed.

Lemma run_add (g : Repo) (c : list string) (fs : gmap (list string) Node)
      (files : list string) :
  run g c fs ("add" :: files)
  = if existsb (unknown_path g c fs) files
    then (Exited 128 "" "fatal: pathspec did not match any files", g)
    else (Exited 0 "" "", with_index g (fold_left (stage c fs) files (git_index g))).
Proof. reflexivity. Qed.

Lemma run_commit (g : Repo) (c : list string) (fs : gmap (list string) Node)
      (message : string) :
  run g c fs ["commit"; "-m"; message]
  = if bool_decide (git_index g = git_head g)
    then (Exited 1 "nothing to commit, working tree clean" "", g)
    else (Exited 0 "" "", with_head g (git_index g)).
Proof. reflexivity. Qed.

Lemma run_push (g : Repo) (c : list string) (fs : gmap (list string) Node) :
  run g c fs ["push"] = (Exited 0 "" "", g).
Proof. reflexivity. Qed.

Lemma run_tag_list (g : Repo) (c : list string) (fs : gmap (list string) Node) :
  run g c fs ["tag"] = (Exited 0 (tag_listing (git_tags g)) "", g).
Proof. reflexivity. Qed.

Lemma run_tag_create (g : Repo) (c : list string) (fs : gmap (list string) Node)
      (t : string) :
  run g c fs ["tag"; t]
  = if negb (valid_ref t) then (Exited 128 "" "fatal: not a valid tag name", g)
    else if str_in t (git_tags g) then (Exited 128 "" "fatal: tag already exists", g)
    else (Exited 0 "" "", with_tags g (git_tags g ++ [t])).
Proof. reflexivity. Qed.

Lemma run_push_tag (g : Repo) (c : list string) (fs : gmap (list string) Node)
      (t : string) :
  run g c fs ["push"; "origin"; t]
  = if str_in t (git_tags g) then (Exited 0 "" "", g)
    else (Exited 1 "" "error: src refspec does not match any", g).
Proof. reflexivity. Qed.

(** *** Staging and status *)

Lemma stage_fold_lookup (c : list string) (fs : gmap (list string) Node)
      (files : list string) (i : gmap string string) (f : string) :
  In f files -> fold_left (stage c fs) files i !! f = worktree c fs f.
Proof.
  revert i. induction files as [|x files IH] using rev_ind; intros i Hin; [destruct Hin|].
  rewrite fold_left_app. cbn [fold_left]. unfold stage at 1.
  destruct (String.eqb_spec x f) as [->|Hne].
  - destruct (worktree c fs f) as [d|]; [apply lookup_insert_eq | apply lookup_delete_eq].
  - apply in_app_iff in Hin as [Hin|[Hin|[]]]; [|contradiction].
    destruct (worktree c fs x) as [d|];
      [rewrite lookup_insert_ne by exact Hne | rewrite lookup_delete_ne by exact Hne];
      apply IH, Hin.
Qed.

Lemma status_of_clean (g : Repo) (c : list string) (fs : gmap (list string) Node)
      (files : list string) :
  (forall f, In f files -> changed g c fs f = false) ->
  status_of g c fs files = "".
Proof.
  induction files as [|x files IH]; intros Hall; [reflexivity|].
  cbn [status_of]. rewrite (Hall x) by (left; reflexivity).
  apply IH. intros f Hf. apply Hall. right. exact Hf.
Qed.

Lemma status_of_ext (g g' : Repo) (c : list string) (fs : gmap (list string) Node)
      (files : list string) :
  git_index g = git_index g' -> git_head g = git_head g' ->
  status_of g c fs files = status_of g' c fs files.
Proof.
  intros Hi Hh. induction files as [|x files IH]; [reflexivity|].
  cbn [status_of]. unfold changed, status_line. rewrite Hi, Hh, IH. reflexivity.
Qed.

Lemma status_ext (g g' : Repo) (c : list string) (fs : gmap (list string) Node)
      (files : list string) :
  git_index g = git_index g' -> git_head g = git_head g' ->
  status g c fs files = status g' c fs files.
Proof.
  intros Hi Hh. unfold status. rewrite Hi, Hh.
  destruct files; apply status_of_ext; assumption.
Qed.

(** After [git add files] and a commit, the files show no change. *)
Lemma status_after_commit (g : Repo) (c : list string) (fs : gmap (list string) Node)
      (files : list string) :
  files <> [] ->
  (exists i, git_index g = fold_left (stage c fs) files i) ->
  git_head g = git_index g ->
  status g c fs files = "".
Proof.
  intros Hne Hidx Hhead. unfold status. destruct files as [|x files]; [contradiction|].
  apply status_of_clean. intros f Hf. unfold changed. rewrite Hhead.
  assert (Hlook : git_index g !! f = worktree c fs f).
  { destruct Hidx as [i ->]. apply stage_fold_lookup, Hf. }
  rewrite Hlook, !bool_decide_eq_true_2 by reflexivity. reflexivity.
Qed.

(** *** The publish step over the reference git *)

Lemma succeeded_bind {A B} (m : M Repo A) (f : A -> M Repo B) (w : World Repo) :
  forallb succeeded (run_outcomes (trace (bind m f w))) = true ->
  forallb succeeded (run_outcomes (trace (m w))) = true
  /\ match outcome (m w) with
     | Ok a => forallb succeeded (run_outcomes (trace (f a (final (m w))))) = true
     | Raise _ => True
     end.
Proof.
  rewrite bind_run. destruct (outcome (m w)) as [a|e]; cbn [trace snd].
  - rewrite run_outcomes_app, forallb_app. apply andb_true_iff.
  - auto.
Qed.

(** A command of the step that succeeded: git is installed, the
    directory is the repository, and the answer is the one of [run]. *)
Lemma git_step_ok (w : World Repo) (args : list string) (capture : bool) :
  forallb succeeded
          (run_outcomes (trace (subprocess_run ("git" :: args) capture true w))) = true ->
  exists out err g',
    git_installed (w_host w) = true
    /\ cwd_path w = git_root (w_host w)
    /\ run (with_faults (w_host w) (tail (git_faults (w_host w)))) (cwd_path w) (w_fs w) args
       = (Exited 0 out err, g')
    /\ subprocess_run ("git" :: args) capture true w
       = (Ok {| cp_returncode := 0;
                cp_stdout := if capture then Some out else None;
                cp_stderr := if capture then Some err else None |},
          with_host w g',
          [EvRun (cwd_path w) ("git" :: args) (Exited 0 out err)]).
Proof.
  unfold subprocess_run, host_exec, host.
  pose proof (exec_succeeded (w_host w) (cwd_path w) (w_fs w) args) as Hex.
  destruct (exec (w_host w) (cwd_path w) (w_fs w) ("git" :: args)) as [o g'].
  cbn [fst] in Hex. destruct o as [|rc out err]; [discriminate|].
  cbn [andb]. destruct (rc =? 0) eqn:Hrc; cbn [negb].
  - intros _. apply Z.eqb_eq in Hrc. subst rc.
    destruct (Hex eq_refl) as (Hi & Hc & Hrun). exists out, err, g'. auto.
  - cbn. rewrite Hrc. discriminate.
Qed.

Lemma publish_body_parts (files_to_add : list string) (tag message : string) :
  publish_body (G:=Repo) files_to_add tag message
  = (status_result <- subprocess_run ("git" :: "status" :: "--porcelain" :: files_to_add)
                                     true true ;;
     (if String.eqb (strip (stdout_text status_result)) ""
      then log LogNoChanges
      else publish_changes files_to_add message) ;;
     publish_tag tag)%script.
Proof. reflexivity. Qed.

Ltac log_step Hs :=
  apply succeeded_bind in Hs as [_ Hs];
  rewrite bind_run;
  cbn [log emit outcome final trace fst snd] in Hs |- *.

Ltac git_step Hs out err g Hrun :=
  let Hs1 := fresh "Hs" in
  let Hstep := fresh "Hstep" in
  apply succeeded_bind in Hs as [Hs1 Hs];
  apply git_step_ok in Hs1 as (out & err & g & _ & _ & Hrun & Hstep);
  rewrite bind_run;
  rewrite Hstep in Hs |- *;
  cbn [outcome final trace fst snd] in Hs |- *.

(** The branch that commits, when all its commands succeed: the index
    holds the working-tree content of the files and HEAD equals the
    index. *)
Lemma publish_changes_ok (w : World Repo) (files_to_add : list string) (message : string) :
  forallb succeeded (run_outcomes (trace (publish_changes files_to_add message w))) = true ->
  outcome (publish_changes files_to_add message w) = Ok tt
  /\ w_fs (final (publish_changes files_to_add message w)) = w_fs w
  /\ w_cwd (final (publish_changes files_to_add message w)) = w_cwd w
  /\ git_tags (w_host (final (publish_changes files_to_add message w))) = git_tags (w_host w)
  /\ git_head (w_host (final (publish_changes files_to_add message w)))
     = git_index (w_host (final (publish_changes files_to_add message w)))
  /\ exists i, git_index (w_host (final (publish_changes files_to_add message w)))
               = fold_left (stage (cwd_path w) (w_fs w)) files_to_add i.
Proof.
  intros Hs. unfold publish_changes in *. cbn [app] in *.
  log_step Hs.
  (* git add *)
  git_step Hs out1 err1 g1 Hrun1.
  rewrite run_add in Hrun1. destruct (existsb _ files_to_add); [discriminate|].
  injection Hrun1 as <- <- <-.
  (* git commit *)
  git_step Hs out2 err2 g2 Hrun2.
  rewrite run_commit in Hrun2. destruct (bool_decide _); [discriminate|].
  injection Hrun2 as <- <- <-.
  (* git push *)
  git_step Hs out3 err3 g3 Hrun3.
  rewrite run_push in Hrun3. injection Hrun3 as <- <- <-.
  cbn. repeat split. eexists. reflexivity.
Qed.

(** The tag handling, when all its commands succeed: the tag is listed
    afterwards, and index and HEAD are untouched. *)
Lemma publish_tag_ok (w : World Repo) (tag : string) :
  forallb succeeded (run_outcomes (trace (publish_tag tag w))) = true ->
  git_installed (w_host (final (publish_tag tag w))) = true
  /\ cwd_path w = git_root (w_host (final (publish_tag tag w)))
  /\ git_index (w_host (final (publish_tag tag w))) = git_index (w_host w)
  /\ git_head (w_host (final (publish_tag tag w))) = git_head (w_host w)
  /\ str_in tag (splitlines (tag_listing (git_tags (w_host (final (publish_tag tag w))))))
     = true.
Proof.
  intros Hs. unfold publish_tag in *.
  apply succeeded_bind in Hs as [Hs1 Hs].
  apply git_step_ok in Hs1 as (out & err & g & Hinst & Hroot & Hrun & Hstep).
  rewrite bind_run. rewrite Hstep in Hs |- *. cbn [outcome final trace fst snd] in Hs |- *.
  rewrite run_tag_list in Hrun. injection Hrun as <- <- <-.
  cbn [stdout_text cp_stdout git_tags with_faults] in Hs |- *.
  destruct (str_in tag (splitlines (tag_listing (git_tags (w_host w))))) eqn:Hin.
  - cbn [log emit final fst snd w_host with_host git_installed git_root git_index
           git_head git_tags with_faults]. auto.
  - log_step Hs.
    git_step Hs out1 err1 g1 Hrun1.
    rewrite run_tag_create in Hrun1.
    destruct (valid_ref tag) eqn:Hvalid; [|discriminate]. cbn [negb] in Hrun1.
    match type of Hrun1 with context [if ?b then _ else _] => destruct b end;
      [discriminate|].
    injection Hrun1 as <- <- <-.
    git_step Hs out2 err2 g2 Hrun2.
    rewrite run_push_tag in Hrun2.
    match type of Hrun2 with context [if ?b then _ else _] => destruct b end;
      [|discriminate].
    injection Hrun2 as <- <- <-.
    cbn [log emit final fst snd w_host with_host git_installed git_root git_index
           git_head git_tags with_faults with_tags].
    repeat split; try assumption.
    apply PyStrFacts.str_in_In, tag_listed; [exact Hvalid|].
    apply in_app_iff. right. left. reflexivity.
Qed.

Lemma settled_with_faults (g : Repo) (faults : list (option string)) (c : list string)
      (fs : gmap (list string) Node) (files : list string) (tag : string) :
  settled g c fs files tag -> settled (with_faults g faults) c fs files tag.
Proof.
  intros (Hi & Hc & Hst & Ht). repeat split; try assumption.
  rewrite <- Hst. f_equal. f_equal. apply status_ext; reflexivity.
Qed.

(** After a publish step whose commands all succeeded, nothing is left
    to publish. *)
Lemma publish_body_settled (w : World Repo) (files_to_add : list string)
      (tag message : string) :
  files_to_add <> [] ->
  forallb succeeded
          (run_outcomes (trace (publish_body files_to_add tag message w))) = true ->
  settled (w_host (final (publish_body files_to_add tag message w)))
          (cwd_path w) (w_fs w) files_to_add tag.
Proof.
  intros Hne Hs. rewrite publish_body_parts in *.
  apply succeeded_bind in Hs as [Hs1 Hs].
  apply git_step_ok in Hs1 as (out & err & g & Hinst & Hroot & Hrun & Hstep).
  rewrite bind_run. rewrite Hstep in Hs |- *. cbn [outcome final trace fst snd] in Hs |- *.
  rewrite run_status in Hrun. injection Hrun as <- <- <-.
  cbn [stdout_text cp_stdout] in Hs |- *.
  apply succeeded_bind in Hs as [Hs2 Hs]. rewrite bind_run.
  destruct (String.eqb (strip (status _ (cwd_path w) (w_fs w) files_to_add)) "") eqn:Hclean.
  - cbn [log emit outcome final trace fst snd] in Hs |- *.
    apply publish_tag_ok in Hs as (Hi & Hr & Hidx & Hhead & Htag).
    cbn [w_host with_host cwd_path w_cwd git_index git_head with_faults] in *.
    repeat split; try assumption.
    rewrite <- Hclean. f_equal. f_equal. apply status_ext; assumption.
  - apply publish_changes_ok in Hs2 as (Hok & Hfs & Hcwd & _ & Hhead & Hidx).
    rewrite Hok in Hs |- *.
    apply publish_tag_ok in Hs as (Hi & Hr & Hidx' & Hhead' & Htag).
    assert (Hpath : cwd_path (final (publish_changes files_to_add message
                       (with_host w (with_faults (w_host w) (tail (git_faults (w_host w)))))))
                    = cwd_path w).
    { unfold cwd_path. rewrite Hcwd. reflexivity. }
    rewrite Hpath in Hr. cbn [final fst snd outcome].
    repeat split; try assumption.
    rewrite status_after_commit; [reflexivity | exact Hne | | congruence].
    destruct Hidx as [i Hi0]. exists i. rewrite Hidx', Hi0. reflexivity.
Qed.

(** A query (a command that always exits with status 0 and changes
    nothing) either meets a scheduled fault or answers. *)
Lemma query_step (w : World Repo) (args : list string) (capture : bool)
      (out : Repo -> string) :
  git_installed (w_host w) = true ->
  cwd_path w = git_root (w_host w) ->
  (forall g, run g (cwd_path w) (w_fs w) args = (Exited 0 (out g) "", g)) ->
  match git_faults (w_host w) with
  | Some err :: later =>
      subprocess_run ("git" :: args) capture true w
      = (Raise (CalledProcessError 1 ("git" :: args) (if capture then Some err else None)),
         with_host w (with_faults (w_host w) later),
         [EvRun (cwd_path w) ("git" :: args) (Exited 1 "" err)])
  | faults =>
      subprocess_run ("git" :: args) capture true w
      = (Ok {| cp_returncode := 0;
               cp_stdout := if capture then Some (out (with_faults (w_host w) (tail faults)))
                            else None;
               cp_stderr := if capture then Some "" else None |},
         with_host w (with_faults (w_host w) (tail faults)),
         [EvRun (cwd_path w) ("git" :: args)
                (Exited 0 (out (with_faults (w_host w) (tail faults))) "")])
  end.
Proof.
  intros Hinst Hroot Hrun. unfold subprocess_run, host_exec, host, exec.
  cbn [String.eqb Ascii.eqb Bool.eqb negb orb]. rewrite Hinst. cbn [negb orb].
  destruct (git_faults (w_host w)) as [|[err|] later]; cbn [tail git_root with_faults];
    try reflexivity;
    rewrite bool_decide_eq_true_2 by exact Hroot; rewrite Hrun; reflexivity.
Qed.

(** With nothing left to publish, the step asks its two questions and
    runs nothing else. *)
Lemma publish_body_quiet (w : World Repo) (files_to_add : list string)
      (tag message : string) :
  settled (w_host w) (cwd_path w) (w_fs w) files_to_add tag ->
  forallb (is_query files_to_add)
          (commands (trace (publish_body files_to_add tag message w))) = true
  /\ (git_faults (w_host w) = [] ->
      commands (trace (publish_body files_to_add tag message w))
      = [["git"; "status"; "--porcelain"] ++ files_to_add; ["git"; "tag"]]).
Proof.
  intros (Hinst & Hroot & Hclean & Htag).
  assert (Hq1 : is_query files_to_add ("git" :: "status" :: "--porcelain" :: files_to_add)
                = true).
  { unfold is_query. rewrite bool_decide_eq_true_2 by reflexivity. reflexivity. }
  assert (Hq2 : is_query files_to_add ["git"; "tag"] = true).
  { unfold is_query. rewrite (bool_decide_eq_true_2 (["git"; "tag"] = ["git"; "tag"]))
      by reflexivity. apply orb_true_r. }
  rewrite publish_body_parts, bind_run.
  pose proof (query_step w ("status" :: "--porcelain" :: files_to_add) true
                (fun g => status g (cwd_path w) (w_fs w) files_to_add)
                Hinst Hroot (fun g => run_status g _ _ _)) as Hstatus.
  destruct (git_faults (w_host w)) as [|[err|] later] eqn:Hfaults.
  2: { rewrite Hstatus. cbn [outcome final trace fst snd commands flat_map app forallb].
       rewrite Hq1. split; [reflexivity | discriminate]. }
  all: rewrite Hstatus; cbn [outcome final trace fst snd stdout_text cp_stdout tail];
    rewrite (status_ext _ (w_host w)) by reflexivity; rewrite Hclean;
    rewrite bind_run; cbn [log emit outcome final trace fst snd];
    unfold publish_tag; rewrite bind_run.
  all: match goal with
       | |- context [subprocess_run _ _ _ ?w1] =>
           pose proof (query_step w1 ["tag"] true (fun g => tag_listing (git_tags g))
                         Hinst Hroot (fun g => run_tag_list g _ _)) as Htags
       end;
    cbn [w_host with_host git_faults with_faults] in Htags.
  - rewrite Htags. cbn [outcome final trace fst snd stdout_text cp_stdout tail git_tags
                          with_faults].
    rewrite Htag. cbn [log emit outcome final trace fst snd commands flat_map app forallb].
    rewrite Hq1, Hq2. split; reflexivity.
  - destruct later as [|[err|] later'].
    + rewrite Htags. cbn [outcome final trace fst snd stdout_text cp_stdout tail git_tags
                            with_faults].
      rewrite Htag. cbn [log emit outcome final trace fst snd commands flat_map app forallb].
      rewrite Hq1, Hq2. split; [reflexivity | discriminate].
    + rewrite Htags. cbn [outcome final trace fst snd commands flat_map app forallb].
      rewrite Hq1, Hq2. split; [reflexivity | discriminate].
    + rewrite Htags. cbn [outcome final trace fst snd stdout_text cp_stdout tail git_tags
                            with_faults].
      rewrite Htag. cbn [log emit outcome final trace fst snd commands flat_map app forallb].
      rewrite Hq1, Hq2. split; [reflexivity | discriminate].
Qed.

Lemma nodup_snoc {A} (l : list A) (x : A) : NoDup l -> ~ In x l -> NoDup (l ++ [x]).
Proof.
  induction 1 as [|y l Hy Hl IH]; intros Hx; cbn [app].
  - constructor; [intros Hin; inversion Hin | constructor].
  - constructor.
    + rewrite list_elem_of_In, in_app_iff. intros [Hin|[->|[]]].
      * apply Hy, list_elem_of_In, Hin.
      * apply Hx. left. reflexivity.
    + apply IH. intros Hin. apply Hx. right. exact Hin.
Qed.

(** No command of the reference git makes a tag listed twice. *)
Lemma exec_keeps_tags_unique (g : Repo) (c : list string) (fs : gmap (list string) Node)
      (cmd : list string) :
  NoDup (git_tags g) -> NoDup (git_tags (snd (exec g c fs cmd))).
Proof.
  intros Hnd. unfold exec. destruct cmd as [|prog args]; [exact Hnd|].
  destruct (negb (String.eqb prog "git") || negb (git_installed g)); [exact Hnd|].
  assert (Hrun : forall g0, NoDup (git_tags g0) -> NoDup (git_tags (snd (run g0 c fs args)))).
  { clear g Hnd. intros g Hnd. unfold run, usage.
    repeat (match goal with
            | |- context [match ?x with _ => _ end] => destruct x eqn:?
            end; cbn [snd git_tags with_index with_head with_tags]; try exact Hnd).
    apply nodup_snoc; [exact Hnd|]. intros Hin.
    match goal with
    | Hs : str_in _ (git_tags g) = false |- _ =>
        apply not_true_iff_false in Hs; apply Hs, PyStrFacts.str_in_In, Hin
    end. }
  destruct (git_faults g) as [|[err|] later]; cbn [snd git_tags with_faults tail];
    try exact Hnd;
    (destruct (bool_decide _); [apply Hrun; exact Hnd | exact Hnd]).
Qed.

End RefGitFacts.




(** ** A blank marker and a missing marker *)
Section BlankMarker.
Context {G : Type} `{ProcessHost G}.

Lemma agree_off_node (cwd : string) (k z : list string) (w w' : World G) :
  agree_off cwd k w w' -> z <> k -> node_at (w_fs w) z = node_at (w_fs w') z.
Proof.
  intros (_ & _ & Hfs & _) Hz. destruct z as [|x z]; [reflexivity|]. cbn [node_at].
  rewrite <- (lookup_delete_ne (w_fs w) k (x :: z)) by congruence.
  rewrite <- (lookup_delete_ne (w_fs w') k (x :: z)) by congruence.
  rewrite Hfs. reflexivity.
Qed.

Lemma agree_off_resolve (cwd : string) (k : list string) (w w' : World G) (p : string) :
  agree_off cwd k w w' ->
  resolve w p = Path.resolve (Path.walk [] (Path.split cwd)) p
  /\ resolve w' p = Path.resolve (Path.walk [] (Path.split cwd)) p.
Proof. intros (Hc & Hc' & _). unfold resolve, cwd_path. rewrite Hc, Hc'. auto. Qed.

Lemma agree_off_insert (cwd : string) (k z : list string) (n : Node) (w w' : World G) :
  agree_off cwd k w w' -> z <> k ->
  agree_off cwd k (with_fs w (<[z := n]> (w_fs w))) (with_fs w' (<[z := n]> (w_fs w'))).
Proof.
  intros (Hc & Hc' & Hfs & Hk & Hk' & Hrest) Hz.
  split; [exact Hc|]. split; [exact Hc'|]. cbn [w_fs with_fs].
  split; [rewrite !delete_insert_ne by congruence; rewrite Hfs; reflexivity|].
  unfold is_dir. rewrite !node_at_insert_ne by exact Hz.
  split; [exact Hk|]. split; [exact Hk' | exact Hrest].
Qed.

Ltac same_run tac := split; [reflexivity | split; [reflexivity | tac]].

Lemma same_off_ret {A} (cwd : string) (k : list string) (a : A) : same_off cwd k (ret (G:=G) a).
Proof. intros w w' Hw. same_run ltac:(exact Hw). Qed.

Lemma same_off_raise {A} (cwd : string) (k : list string) (e : PyExc) :
  same_off cwd k (raise (G:=G) (A:=A) e).
Proof. intros w w' Hw. same_run ltac:(exact Hw). Qed.

Lemma same_off_emit (cwd : string) (k : list string) (ev : Event) :
  same_off cwd k (emit (G:=G) ev).
Proof. intros w w' Hw. same_run ltac:(exact Hw). Qed.

Lemma same_off_bind {A B} (cwd : string) (k : list string) (m : M G A) (f : A -> M G B) :
  same_off cwd k m -> (forall a, same_off cwd k (f a)) -> same_off cwd k (bind m f).
Proof.
  intros Hm Hf w w' Hw. rewrite !bind_run. destruct (Hm w w' Hw) as (Ho & Ht & Hfin).
  rewrite <- Ho, <- Ht. destruct (outcome (m w)) as [a|e]; cbn [outcome final trace fst snd].
  - destruct (Hf a _ _ Hfin) as (Ho2 & Ht2 & Hfin2). rewrite Ho2, Ht2. auto.
  - auto.
Qed.

Lemma joins_bind {A B} (cwd : string) (k : list string) (m : M G A) (f : A -> M G B) :
  joins cwd k m -> joins cwd k (bind m f).
Proof.
  intros Hm w w' Hw. rewrite !bind_run. destruct (Hm w w' Hw) as (Ho & Ht & Hfin).
  rewrite <- Ho, <- Ht. destruct (outcome (m w)) as [a|e]; cbn [outcome final trace fst snd].
  - rewrite <- (Hfin eq_refl). split; [reflexivity | split; [reflexivity | reflexivity]].
  - split; [reflexivity | split; [reflexivity | discriminate]].
Qed.

Lemma joins_after {A B} (cwd : string) (k : list string) (m : M G A) (f : A -> M G B) :
  same_off cwd k m -> (forall a, joins cwd k (f a)) -> joins cwd k (bind m f).
Proof.
  intros Hm Hf w w' Hw. rewrite !bind_run. destruct (Hm w w' Hw) as (Ho & Ht & Hfin).
  rewrite <- Ho, <- Ht. destruct (outcome (m w)) as [a|e]; cbn [outcome final trace fst snd].
  - destruct (Hf a _ _ Hfin) as (Ho2 & Ht2 & Hfin2). rewrite Ho2, Ht2.
    split; [reflexivity | split; [reflexivity | rewrite <- Ho2; exact Hfin2]].
  - split; [reflexivity | split; [reflexivity | discriminate]].
Qed.

Lemma same_off_requests_get (cwd : string) (k : list string) (url : string) (stream : bool)
      (timeout : Z) :
  same_off (G:=G) cwd k (requests_get url stream timeout).
Proof.
  intros w w' Hw.
  pose proof Hw as (Hc & Hc' & Hfs & Hk & Hk' & Hl & Hh & Hhttp & Hsent & Hn & Hsha).
  unfold requests_get. rewrite <- Hhttp, <- Hsent.
  destruct (w_http w (w_sent w) url); cbn [outcome final trace fst snd];
    same_run ltac:(repeat split; cbn; congruence).
Qed.

Lemma same_off_raise_for_status (cwd : string) (k : list string) (r : Response) :
  same_off (G:=G) cwd k (raise_for_status r).
Proof.
  unfold raise_for_status. destruct (_ && _); [apply same_off_raise | apply same_off_ret].
Qed.

Section OtherFile.
Variables (cwd : string) (k z : list string) (path : string).
Hypothesis Hpath : Path.resolve (Path.walk [] (Path.split cwd)) path = Some z.
Hypothesis Hz : z <> k.
Hypothesis Hparent : Path.parent z <> k.

Lemma agree_off_dir (a : list string) (w w' : World G) :
  agree_off cwd k w w' -> a <> k ->
  is_dir (w_fs w) a = is_dir (w_fs w') a /\ is_file (w_fs w) a = is_file (w_fs w') a.
Proof.
  intros Hw Ha. unfold is_dir, is_file. rewrite (agree_off_node _ _ _ _ _ Hw Ha). auto.
Qed.

Lemma same_off_open_write : same_off (G:=G) cwd k (open_write path).
Proof.
  intros w w' Hw. destruct (agree_off_resolve _ _ _ _ path Hw) as (Hr & Hr').
  unfold open_write. rewrite Hr, Hr', Hpath.
  destruct (agree_off_dir z w w' Hw Hz) as (<- & _).
  destruct (agree_off_dir (Path.parent z) w w' Hw Hparent) as (<- & <-).
  destruct (is_dir (w_fs w) z); [same_run ltac:(exact Hw)|].
  destruct (is_dir (w_fs w) (Path.parent z)).
  - same_run ltac:(apply agree_off_insert; assumption).
  - destruct (is_file (w_fs w) (Path.parent z)); same_run ltac:(exact Hw).
Qed.

Lemma same_off_write_binary (data : string) : same_off (G:=G) cwd k (write_binary path data).
Proof.
  intros w w' Hw. destruct (agree_off_resolve _ _ _ _ path Hw) as (Hr & Hr').
  unfold write_binary. rewrite Hr, Hr', Hpath.
  rewrite <- (agree_off_node _ _ _ _ _ Hw Hz).
  destruct (node_at (w_fs w) z) as [[|d]|]; try (same_run ltac:(exact Hw)).
  same_run ltac:(apply agree_off_insert; assumption).
Qed.

Lemma same_off_read_binary : same_off (G:=G) cwd k (read_binary path).
Proof.
  intros w w' Hw. destruct (agree_off_resolve _ _ _ _ path Hw) as (Hr & Hr').
  unfold read_binary. rewrite Hr, Hr', Hpath.
  rewrite <- (agree_off_node _ _ _ _ _ Hw Hz).
  destruct (node_at (w_fs w) z) as [[|d]|]; same_run ltac:(exact Hw).
Qed.

Lemma same_off_write_chunks (total_size downloaded_size : Z) (cs : list string) :
  same_off (G:=G) cwd k (write_chunks path total_size downloaded_size cs).
Proof.
  revert downloaded_size. induction cs as [|chunk cs IH]; intros downloaded_size;
    cbn [write_chunks]; [apply same_off_ret|].
  destruct (String.eqb chunk ""); [apply IH|].
  apply same_off_bind; [apply same_off_write_binary | intros _].
  apply same_off_bind; [apply same_off_emit | intros _]. apply IH.
Qed.

Lemma same_off_baixar_arquivo_com_progresso (url : json) :
  same_off (G:=G) cwd k (baixar_arquivo_com_progresso url path).
Proof.
  unfold baixar_arquivo_com_progresso, log.
  apply same_off_bind;
    [destruct url; first [apply same_off_requests_get | apply same_off_raise] | intros r].
  apply same_off_bind; [apply same_off_raise_for_status | intros _].
  apply same_off_bind;
    [destruct (content_length r) as [[n|]|];
       first [apply same_off_ret | apply same_off_raise] | intros total].
  apply same_off_bind; [apply same_off_open_write | intros _].
  apply same_off_bind; [apply same_off_emit | intros _].
  apply same_off_bind; [apply same_off_write_chunks | intros _].
  apply same_off_bind;
    [destruct (broken_after r); first [apply same_off_ret | apply same_off_raise] | intros _].
  apply same_off_bind; [apply same_off_emit | intros _]. apply same_off_emit.
Qed.

Lemma same_off_calcular_sha256 : same_off (G:=G) cwd k (calcular_sha256 path).
Proof.
  intros w w' Hw. unfold calcular_sha256.
  pose proof Hw as (_ & _ & _ & _ & _ & _ & _ & _ & _ & _ & Hsha). rewrite <- Hsha.
  apply (same_off_bind cwd k (read_binary path) (fun data => ret (w_sha256 w data)));
    [apply same_off_read_binary | intros a; apply same_off_ret | exact Hw].
Qed.

End OtherFile.

Lemma world_eq (w w' : World G) :
  w_cwd w = w_cwd w' -> w_fs w = w_fs w' -> w_linesep w = w_linesep w' ->
  w_host w = w_host w' -> w_http w = w_http w' -> w_sent w = w_sent w' ->
  w_notifier w = w_notifier w' -> w_sha256 w = w_sha256 w' -> w = w'.
Proof. destruct w, w'. cbn. intros. subst. reflexivity. Qed.

Lemma parent_not_self (k : list string) : k <> [] -> Path.parent k <> k.
Proof.
  intros Hk Heq. apply (f_equal (@length string)) in Heq.
  unfold Path.parent in Heq. destruct (exists_last Hk) as (l & x & ->).
  rewrite removelast_last, length_app in Heq. cbn in Heq. lia.
Qed.

(** Writing the marker brings the two worlds together. *)
Lemma joins_salvar_versao (cwd : string) (k : list string) (path v : string) :
  Path.resolve (Path.walk [] (Path.split cwd)) path = Some k ->
  joins (G:=G) cwd k (salvar_versao path (JStr v)).
Proof.
  intros Hpath w w' Hw. destruct (agree_off_resolve _ _ _ _ path Hw) as (Hr & Hr').
  pose proof Hw as (Hc & Hc' & Hfs & Hk & Hk' & Hl & Hh & Hhttp & Hsent & Hn & Hsha).
  pose proof (is_dir_false_not_root _ _ Hk) as Hne.
  destruct (agree_off_dir cwd k (Path.parent k) w w' Hw (parent_not_self k Hne))
    as (Hpd & Hpf).
  assert (Hopen : (exists e, open_write path w = (Raise e, w, [EvOpenWrite path])
                             /\ open_write path w' = (Raise e, w', [EvOpenWrite path]))
                  \/ (exists w2, open_write path w = (Ok tt, w2, [EvOpenWrite path])
                                 /\ open_write path w' = (Ok tt, w2, [EvOpenWrite path]))).
  { unfold open_write. rewrite Hr, Hr', Hpath, Hk, Hk', <- Hpd, <- Hpf.
    destruct (is_dir (w_fs w) (Path.parent k)).
    - right. exists (with_fs w (<[k := File ""]> (w_fs w))). split; [reflexivity|].
      f_equal. f_equal. apply world_eq; cbn; try congruence.
      rewrite <- (insert_delete_eq (w_fs w)), <- (insert_delete_eq (w_fs w')), Hfs.
      reflexivity.
    - destruct (is_file (w_fs w) (Path.parent k)); left; eauto. }
  unfold salvar_versao. rewrite !bind_run.
  destruct Hopen as [(e & -> & ->)|(w2 & -> & ->)]; cbn [outcome final trace fst snd].
  - split; [reflexivity | split; [reflexivity | discriminate]].
  - split; [reflexivity | split; [reflexivity | reflexivity]].
Qed.

Lemma prefixes_length (acc c a : list string) :
  In a (prefixes acc c) -> (length a <= length acc + length c)%nat.
Proof.
  revert acc. induction c as [|x c IH]; intros acc Ha; [destruct Ha|].
  destruct Ha as [<-|Ha].
  - rewrite length_app. cbn. lia.
  - apply IH in Ha. rewrite length_app in Ha. cbn in *. lia.
Qed.

Lemma prefixes_not_child (c a : list string) (x : string) :
  In a (prefixes [] c) -> a <> c ++ [x].
Proof.
  intros Ha Heq. apply prefixes_length in Ha. rewrite Heq, length_app in Ha. cbn in Ha. lia.
Qed.

Lemma mkdir_all_other (ps : list (list string)) (fs : gmap (list string) Node)
      (k : list string) :
  ~ In k ps -> mkdir_all fs ps !! k = fs !! k.
Proof.
  unfold mkdir_all. revert fs. induction ps as [|q ps IH]; intros fs Hk; [reflexivity|].
  cbn [fold_left]. rewrite IH by (intros Hin; apply Hk; right; exact Hin).
  apply lookup_insert_ne. intros ->. apply Hk. left. reflexivity.
Qed.

Lemma mkdir_all_delete (ps : list (list string)) (fs : gmap (list string) Node)
      (k : list string) :
  ~ In k ps -> mkdir_all (delete k fs) ps = delete k (mkdir_all fs ps).
Proof.
  unfold mkdir_all. revert fs. induction ps as [|q ps IH]; intros fs Hk; [reflexivity|].
  cbn [fold_left]. rewrite <- IH by (intros Hin; apply Hk; right; exact Hin).
  rewrite delete_insert_ne; [reflexivity|]. intros ->. apply Hk. left. reflexivity.
Qed.

Lemma node_at_not_root (fs : gmap (list string) Node) (k : list string) :
  k <> [] -> node_at fs k = fs !! k.
Proof. destruct k; [contradiction | reflexivity]. Qed.

Lemma node_at_delete_ne (fs : gmap (list string) Node) (k a : list string) :
  a <> k -> node_at (delete k fs) a = node_at fs a.
Proof. destruct a; [reflexivity|]. intros Ha. apply lookup_delete_ne. congruence. Qed.

(** Creating the directory does not look at an entry inside it. *)
Lemma os_makedirs_without_entry (w w1 : World G) (p x : string) (c0 : list string)
      (t : list Event) :
  resolve w p = Some c0 ->
  os_makedirs p w = (Ok tt, w1, t) ->
  os_makedirs p (without_entry w (c0 ++ [x])) = (Ok tt, without_entry w1 (c0 ++ [x]), t)
  /\ node_at (w_fs w1) (c0 ++ [x]) = node_at (w_fs w) (c0 ++ [x])
  /\ w_cwd w1 = w_cwd w /\ w_http w1 = w_http w /\ w_sent w1 = w_sent w.
Proof.
  intros Hc. unfold os_makedirs, without_entry.
  change (resolve (with_fs w (delete (c0 ++ [x]) (w_fs w))) p) with (resolve w p).
  rewrite Hc. cbn [w_fs with_fs].
  assert (Hc0 : c0 <> c0 ++ [x]).
  { intros Heq. apply (f_equal (@length string)) in Heq. rewrite length_app in Heq.
    cbn in Heq. lia. }
  assert (Hfile : forall a, a <> c0 ++ [x] ->
                    is_file (delete (c0 ++ [x]) (w_fs w)) a = is_file (w_fs w) a).
  { intros a Ha. unfold is_file. rewrite node_at_delete_ne by exact Ha. reflexivity. }
  rewrite (Hfile c0 Hc0).
  assert (Hex : existsb (is_file (delete (c0 ++ [x]) (w_fs w))) (prefixes [] c0)
                = existsb (is_file (w_fs w)) (prefixes [] c0)).
  { assert (Hall : forall a, In a (prefixes [] c0) -> a <> c0 ++ [x])
      by (intros a Ha; apply prefixes_not_child, Ha).
    induction (prefixes [] c0) as [|a l IH]; [reflexivity|]. cbn [existsb].
    rewrite Hfile by (apply Hall; left; reflexivity).
    rewrite IH by (intros b Hb; apply Hall; right; exact Hb). reflexivity. }
  rewrite Hex. destruct (is_file (w_fs w) c0); [discriminate|].
  destruct (existsb (is_file (w_fs w)) (prefixes [] c0)); [discriminate|].
  intros [= <- <-]. cbn [w_fs with_fs w_cwd w_http w_sent].
  assert (Hnot : ~ In (c0 ++ [x]) (prefixes [] c0)).
  { intros Hin. exact (prefixes_not_child _ _ x Hin eq_refl). }
  rewrite mkdir_all_delete by exact Hnot. split; [reflexivity|].
  split; [|auto].
  rewrite !node_at_not_root by (destruct c0; discriminate).
  apply mkdir_all_other, Hnot.
Qed.

(** Equal results and traces stay equal under the [except] clauses of
    [main], which only log. *)
Lemma try_except_main_handler_same (m m' : M G unit) (w w' : World G) :
  outcome (m w) = outcome (m' w') ->
  trace (m w) = trace (m' w') ->
  outcome (try_except m main_handler w) = outcome (try_except m' main_handler w')
  /\ trace (try_except m main_handler w) = trace (try_except m' main_handler w').
Proof.
  unfold try_except. destruct (m w) as [[r w1] t1], (m' w') as [[r' w1'] t1'].
  cbn [outcome trace fst snd]. intros <- <-. destruct r as [[]|e]; [auto|].
  unfold main_handler. destruct (is_RequestException e); [auto|].
  destruct (is_ValueError e || is_KeyError e); auto.
Qed.

(** The update does not look at the marker before it overwrites it. *)
Lemma joins_main_update (cwd p zip_path version_path v : string) (k z : list string)
      (url : json) :
  Path.resolve (Path.walk [] (Path.split cwd)) zip_path = Some z ->
  Path.resolve (Path.walk [] (Path.split cwd)) version_path = Some k ->
  z <> k -> Path.parent z <> k ->
  joins (G:=G) cwd k (main_update p zip_path version_path (JStr v) url).
Proof.
  intros Hz Hk Hzk Hpk. unfold main_update, log.
  apply joins_after; [apply same_off_emit | intros _].
  apply joins_after;
    [apply (same_off_baixar_arquivo_com_progresso cwd k z zip_path Hz Hzk Hpk) | intros _].
  apply joins_after; [apply (same_off_calcular_sha256 cwd k z zip_path Hz Hzk) | intros sha].
  apply joins_after; [apply same_off_emit | intros _].
  apply joins_bind, joins_salvar_versao, Hk.
Qed.

(** The [try] block of [main] when the version is new. *)
Lemma main_try_new_version (w : World G) (p zip_path version_path v : string)
      (data url : json) (versao_salva : option string) :
  metadata_reply w data ->
  select_win64 data = Ok (JStr v, url) ->
  ler_versao_salva version_path (with_sent w (S (w_sent w)))
  = (Ok versao_salva, with_sent w (S (w_sent w)), []) ->
  eq_saved versao_salva (JStr v) = false ->
  main_try p zip_path version_path w
  = (outcome (main_update p zip_path version_path (JStr v) url
                          (with_sent w (S (w_sent w)))),
     final (main_update p zip_path version_path (JStr v) url (with_sent w (S (w_sent w)))),
     [EvLog LogStart; EvLog LogQueryingApi; EvHttpGet JSON_URL false 15;
      EvLog (LogLatestFound (JStr v)); EvLog (LogSavedVersion (saved_or_none versao_salva))]
     ++ trace (main_update p zip_path version_path (JStr v) url
                           (with_sent w (S (w_sent w))))).
Proof.
  intros Hrep Hsel Hler Heq. unfold main_try.
  rewrite bind_run. cbn [log emit outcome final trace fst snd].
  rewrite bind_run, (obter_ultima_versao_e_url_reply _ _ Hrep), Hsel.
  cbn [outcome final trace fst snd].
  rewrite bind_run. cbn [log emit outcome final trace fst snd].
  rewrite bind_run, Hler. cbn [outcome final trace fst snd].
  rewrite bind_run. cbn [log emit outcome final trace fst snd]. rewrite Heq.
  reflexivity.
Qed.

(** C8: a marker file that holds only white space is read as the empty
    string, not as the missing-marker value; and with such a marker at
    the configured path, a run of [main] that gets a non-empty version
    string V from the resolver takes the new-version branch and returns
    and emits exactly what the run from the same state without the marker
    file returns and emits (the saved version is shown as "Nenhuma" in
    both, and the download follows). *)
Theorem C8_blank_marker (w : World G) (path d : string) :
  file_at w path d ->
  PyStr.all_space d = true ->
  ler_versao_salva path w = (Ok (Some ""), w, [])
  /\ forall (p v : string) (c0 : list string) (data url : json),
       p <> "" ->
       path = Path.join p VERSION_FILE ->
       resolve w p = Some c0 ->
       outcome (os_makedirs p w) = Ok tt ->
       metadata_reply w data ->
       select_win64 data = Ok (JStr v, url) ->
       v <> "" ->
       outcome (main (Some p) w)
       = outcome (main (Some p) (without_entry w (c0 ++ [VERSION_FILE])))
       /\ trace (main (Some p) w)
          = trace (main (Some p) (without_entry w (c0 ++ [VERSION_FILE])))
       /\ exists before after,
            trace (main (Some p) w)
            = before ++ [EvLog (LogSavedVersion "Nenhuma"); EvLog LogNewVersion] ++ after.
Proof.
  intros (k & Hk & Hfile) Hblank.
  assert (Hread : forall w0 : World G,
             resolve w0 path = Some k -> node_at (w_fs w0) k = Some (File d) ->
             ler_versao_salva path w0 = (Ok (Some ""), w0, [])).
  { intros w0 Hr Hn. rewrite (ler_versao_salva_file path d k w0 Hr Hn).
    rewrite PyStrFacts.strip_all_space by apply PyStrFacts.all_space_universal, Hblank.
    reflexivity. }
  split; [apply Hread; assumption|].
  intros p v c0 data url Hp -> Hc0 Hmk Hrep Hsel Hv.
  assert (Hkeq : k = c0 ++ [VERSION_FILE]).
  { unfold resolve in Hk, Hc0.
    rewrite (PathFacts.resolve_join _ _ VERSION_FILE _ Hc0 eq_refl) in Hk. congruence. }
  subst k.
  destruct (os_makedirs_run p w) as (r & fs1 & Hrun & _). rewrite Hrun in Hmk.
  cbn [outcome fst] in Hmk. subst r.
  destruct (os_makedirs_without_entry w _ p VERSION_FILE c0 _ Hc0 Hrun)
    as (Hrun' & Hnode & Hcwd & Hhttp & Hsent).
  set (w1 := with_fs w fs1) in *.
  set (k := c0 ++ [VERSION_FILE]) in *.
  set (W := with_sent w1 (S (w_sent w1))).
  set (W' := with_sent (without_entry w1 k) (S (w_sent (without_entry w1 k)))).
  assert (Hres : forall q, resolve W q = Path.resolve (cwd_path w) q
                          /\ resolve W' q = Path.resolve (cwd_path w) q).
  { intros q. split; reflexivity. }
  assert (Hkpath : Path.resolve (cwd_path w) (Path.join p VERSION_FILE) = Some k).
  { apply (PathFacts.resolve_join _ _ VERSION_FILE _ Hc0 eq_refl). }
  assert (Hzpath : Path.resolve (cwd_path w) (Path.join p ZIP_NAME)
                   = Some (c0 ++ [ZIP_NAME])).
  { apply (PathFacts.resolve_join _ _ ZIP_NAME _ Hc0 eq_refl). }
  assert (Hknot : k <> []) by (unfold k; destruct c0; discriminate).
  assert (Hagree : agree_off (w_cwd w) k W W').
  { unfold agree_off, W, W', without_entry, w1. cbn [w_cwd w_fs w_linesep w_host w_http
      w_sent w_notifier w_sha256 with_fs with_sent].
    repeat split.
    - rewrite delete_delete_eq. reflexivity.
    - unfold is_dir. change (node_at fs1 k) with (node_at (w_fs w1) k).
      rewrite Hnode, Hfile. reflexivity.
    - unfold is_dir. rewrite node_at_not_root by exact Hknot.
      rewrite lookup_delete_eq. reflexivity. }
  assert (Hjoin : joins (G:=G) (w_cwd w) k
                    (main_update p (Path.join p ZIP_NAME) (Path.join p VERSION_FILE)
                                 (JStr v) url)).
  { apply (joins_main_update (w_cwd w) p _ _ v k (c0 ++ [ZIP_NAME]) url Hzpath Hkpath).
    - unfold k. intros Heq. apply app_inj_tail in Heq as [_ Heq]. discriminate.
    - unfold Path.parent. rewrite removelast_last. unfold k. intros Heq.
      apply (f_equal (@length string)) in Heq. rewrite length_app in Heq. cbn in Heq. lia. }
  destruct (Hjoin W W' Hagree) as (Hout & Htrace & _).
  assert (Hsaved : eq_saved (Some "") (JStr v) = false).
  { cbn. destruct v; [contradiction | reflexivity]. }
  assert (Htry : main_try p (Path.join p ZIP_NAME) (Path.join p VERSION_FILE) w1
                 = (outcome (main_update p (Path.join p ZIP_NAME) (Path.join p VERSION_FILE)
                                         (JStr v) url W),
                    final (main_update p (Path.join p ZIP_NAME) (Path.join p VERSION_FILE)
                                       (JStr v) url W),
                    [EvLog LogStart; EvLog LogQueryingApi; EvHttpGet JSON_URL false 15;
                     EvLog (LogLatestFound (JStr v)); EvLog (LogSavedVersion "Nenhuma")]
                    ++ trace (main_update p (Path.join p ZIP_NAME)
                                          (Path.join p VERSION_FILE) (JStr v) url W))).
  { apply (main_try_new_version w1 p _ _ v data url (Some "")); try assumption.
    apply Hread; [exact Hkpath|]. cbn [w_fs with_sent]. rewrite Hnode. exact Hfile. }
  assert (Htry' : main_try p (Path.join p ZIP_NAME) (Path.join p VERSION_FILE)
                           (without_entry w1 k)
                  = (outcome (main_update p (Path.join p ZIP_NAME) (Path.join p VERSION_FILE)
                                          (JStr v) url W'),
                     final (main_update p (Path.join p ZIP_NAME) (Path.join p VERSION_FILE)
                                        (JStr v) url W'),
                     [EvLog LogStart; EvLog LogQueryingApi; EvHttpGet JSON_URL false 15;
                      EvLog (LogLatestFound (JStr v)); EvLog (LogSavedVersion "Nenhuma")]
                     ++ trace (main_update p (Path.join p ZIP_NAME)
                                           (Path.join p VERSION_FILE) (JStr v) url W'))).
  { apply (main_try_new_version (without_entry w1 k) p _ _ v data url None);
      try assumption; [|reflexivity].
    apply ler_versao_salva_missing, path_missing_exists. unfold path_missing.
    change (resolve _ (Path.join p VERSION_FILE))
      with (Path.resolve (cwd_path w) (Path.join p VERSION_FILE)).
    rewrite Hkpath. apply bool_decide_eq_true.
    cbn [w_fs with_sent without_entry with_fs].
    rewrite node_at_not_root by exact Hknot. apply lookup_delete_eq. }
  destruct (try_except_main_handler_same
              (main_try p (Path.join p ZIP_NAME) (Path.join p VERSION_FILE))
              (main_try p (Path.join p ZIP_NAME) (Path.join p VERSION_FILE))
              w1 (without_entry w1 k)) as (Hout2 & Htrace2).
  { rewrite Htry, Htry'. exact Hout. }
  { rewrite Htry, Htry'. cbn [trace snd]. rewrite Htrace. reflexivity. }
  rewrite !main_unfold by exact Hp. rewrite !bind_run, Hrun, Hrun'.
  cbn [outcome final trace fst snd]. fold w1. rewrite Hout2, Htrace2.
  split; [reflexivity|]. split; [reflexivity|].
  rewrite <- Htrace2. unfold try_except. rewrite Htry.
  assert (Hupd : exists rest, trace (main_update p (Path.join p ZIP_NAME)
                                       (Path.join p VERSION_FILE) (JStr v) url W)
                              = EvLog LogNewVersion :: rest).
  { unfold main_update. rewrite bind_run. cbn [log emit outcome final trace fst snd].
    destruct (outcome _); eexists; reflexivity. }
  destruct Hupd as [rest Hupd]. rewrite Hupd.
  destruct (outcome (main_update _ _ _ _ _ W)) as [[]|e].
  - exists [EvMakedirs p; EvLog LogStart; EvLog LogQueryingApi; EvHttpGet JSON_URL false 15;
            EvLog (LogLatestFound (JStr v))], rest. reflexivity.
  - destruct (main_handler e) as [h|] eqn:Hh.
    + destruct (h _) as [[r2 w2] t2].
      exists [EvMakedirs p; EvLog LogStart; EvLog LogQueryingApi;
              EvHttpGet JSON_URL false 15; EvLog (LogLatestFound (JStr v))], (rest ++ t2).
      reflexivity.
    + exists [EvMakedirs p; EvLog LogStart; EvLog LogQueryingApi;
              EvHttpGet JSON_URL false 15; EvLog (LogLatestFound (JStr v))], rest.
      reflexivity.
Qed.

End BlankMarker.

Lemma C8_blank_marker_witness :
  ler_versao_salva "/repo/version.txt" Scenario.blank_world
  = (Ok (Some ""), Scenario.blank_world, [])
  /\ trace (main (Some "/repo") Scenario.blank_world)
     = trace (main (Some "/repo")
                   (without_entry Scenario.blank_world ["repo"; "version.txt"])).
Proof.
  assert (Hfile : file_at Scenario.blank_world "/repo/version.txt"
                          (String " " (String PyStr.LF "")))
    by (exists ["repo"; "version.txt"]; split; reflexivity).
  assert (Hrep : metadata_reply Scenario.blank_world Scenario.metadata)
    by (exists Scenario.reply; repeat split).
  destruct (C8_blank_marker Scenario.blank_world "/repo/version.txt" _ Hfile eq_refl)
    as (Hread & Hmain).
  destruct (Hmain "/repo" "131.0.6778.204" ["repo"] Scenario.metadata
                  (JStr "https://host/win64.zip") ltac:(discriminate) eq_refl eq_refl
                  eq_refl Hrep eq_refl ltac:(discriminate)) as (_ & Htrace & _).
  split; assumption.
Defined.
